(** * Text-to-voice engine: lifecycle, request validation and temp-file handling

    A shallow embedding of [backend/src/tts/engine_base.py],
    [backend/src/tts/coqui.py] and [backend/src/tts/audio.py].

    Python objects are modelled as follows.
    - A [str] is a [string], one element per character; [len] is
      [String.length].
    - An exception object is its class name and its message ([exn]).
    - The engine instance is the record [engine]: [self.model],
      [self.is_loaded], and the two strings [__init__] derives from the
      configuration, [self.model_name] and [self.device].
    - The file system is the finite set of paths that exist.
    - Calls into third-party code (the [TTS] constructor, [model.tts],
      [soundfile.write], the name picked by [tempfile]) are oracles: fields
      of a class whose outcome is either a value or a raised exception.  The
      embedding records every such call in the [world], so that "the model
      was never invoked" is a statement about the recorded calls.
    - [print] is not modelled: console output is not part of the state. *)

From Stdlib Require PrimFloat Uint63.
From stdpp Require Import base gmap sets list strings pretty.

Open Scope string_scope.

(** ** Exceptions and the state-and-exception monad *)

Inductive exn : Type := Exn (cls msg : string).

Definition ValueError (msg : string) : exn := Exn "ValueError" msg.
Definition AttributeError (msg : string) : exn := Exn "AttributeError" msg.

Inductive outcome (A : Type) : Type :=
| Ret (a : A)
| Raise (e : exn).
Arguments Ret {A} a.
Arguments Raise {A} e.

Definition M (S A : Type) : Type := S -> outcome A * S.

Definition ret {S A} (a : A) : M S A := fun s => (Ret a, s).
Definition raise {S A} (e : exn) : M S A := fun s => (Raise e, s).
Definition bind {S A B} (c : M S A) (k : A -> M S B) : M S B :=
  fun s => match c s with
           | (Ret a, s') => k a s'
           | (Raise e, s') => (Raise e, s')
           end.
Definition get {S} : M S S := fun s => (Ret s, s).
Definition modify {S} (f : S -> S) : M S unit := fun s => (Ret tt, f s).

(** [try: body except Exception as e: handler e] *)
Definition try_except {S A} (body : M S A) (handler : exn -> M S A) : M S A :=
  fun s => match body s with
           | (Ret a, s') => (Ret a, s')
           | (Raise e, s') => handler e s'
           end.

(** [if c: body] with no [else] branch *)
Definition when {S} (c : bool) (body : M S unit) : M S unit :=
  if c then body else ret tt.

(** [c] leaves the component [f] of the state as it found it, whatever
    its outcome. *)
Definition preserves {S A B} (f : S -> B) (c : M S A) : Prop :=
  forall s, f (c s).2 = f s.

Notation "'let!' x ':=' c 'in' k" := (bind c (fun x => k))
  (at level 10, x pattern, c at level 100, k at level 200).
Notation "c ';;' k" := (bind c (fun _ => k))
  (at level 100, k at level 200, right associativity).

(** ** The engine and the world it acts on *)

(** The keyword arguments [model.tts] is called with; [a_speaker_wav] is
    [None] in default-speaker mode, where the keyword is not passed. *)
Record tts_args : Type := TtsArgs {
  a_text : string;
  a_speaker_wav : option string;
  a_language : string
}.

Record world : Type := World {
  fs : gset string;            (* the paths that exist on disk *)
  constructions : nat;         (* how many times [TTS(...)] has been constructed *)
  tts_calls : list tts_args    (* the calls of [model.tts], latest first *)
}.

(** *** Third-party calls

    Every call that leaves the repository is a field of this interface.  A
    field returns the call's outcome; the embedding, not the field, records
    that the call happened. *)
Class Externals (handle sample : Type) : Type := {
  (** [TTS(model_name).to(device)]; the last argument is the number of
      constructions performed before this one. *)
  TTS_to : string -> string -> nat -> outcome handle;
  (** [model.tts] applied to its keyword arguments; the last argument is the
      number of earlier calls. *)
  model_tts : handle -> tts_args -> nat -> outcome (list sample);
  (** [soundfile.write(path, data, samplerate)]: [None] when it returns. *)
  sf_write : string -> list sample -> Z -> option exn;
  (** The directory [tempfile] uses and the random infix it picks, given the
      paths that exist. *)
  gettempdir : string;
  tmp_infix : gset string -> string;
  (** Conversion of one sample by [np.array(..., dtype=np.float32)]. *)
  float32 : sample -> sample
}.

(** [TTSEngineBase.__init__] and [CoquiXTTSEngine.__init__]: the fields of
    [self] that the methods read or write. *)
Record engine (handle : Type) : Type := Engine {
  model_name : string;
  device : string;
  model : option handle;
  is_loaded : bool
}.
Arguments Engine {handle} _ _ _ _.
Arguments model_name {handle} _.
Arguments device {handle} _.
Arguments model {handle} _.
Arguments is_loaded {handle} _.

Record state (handle : Type) : Type := State { eng : engine handle; wld : world }.
Arguments State {handle} _ _.
Arguments eng {handle} _.
Arguments wld {handle} _.

(** The reference audio a caller may pass as [speaker_wav]. *)
Inductive speaker_ref (sample : Type) : Type :=
| RefStr (p : string)            (* a [str] *)
| RefPath (p : string)           (* a [pathlib.Path]; [p] is [str(path)] *)
| RefArray (a : list sample)     (* a [numpy.ndarray] *)
| RefOther (a : list sample).    (* any other object, e.g. a list of samples *)
Arguments RefStr {sample} p.
Arguments RefPath {sample} p.
Arguments RefArray {sample} a.
Arguments RefOther {sample} a.

Definition SUPPORTED_LANGUAGES : list string :=
  ["en"; "es"; "fr"; "de"; "it"; "pt"; "pl"; "tr";
   "ru"; "nl"; "cs"; "ar"; "zh-cn"; "ja"; "hu"; "ko"].

(** [repr] of a [str] without quotes or escapes, and of a list of such. *)
Definition py_repr_str (s : string) : string := "'" +:+ s +:+ "'".

Fixpoint join (sep : string) (l : list string) : string :=
  match l with
  | [] => EmptyString
  | [x] => x
  | x :: rest => x +:+ sep +:+ join sep rest
  end.

Definition py_repr_list (l : list string) : string :=
  "[" +:+ join ", " (map py_repr_str l) +:+ "]".

Definition unsupported_language_message (language : string) : string :=
  "Language '" +:+ language +:+ "' not supported. Available: "
  +:+ py_repr_list SUPPORTED_LANGUAGES.

Definition text_too_long_message (max_length : Z) : string :=
  "Text too long. Maximum " +:+ pretty max_length +:+ " characters allowed.".

(** [needle] is a contiguous part of [hay]. *)
Definition occurs_in (needle hay : string) : Prop :=
  exists pre post, hay = pre +:+ needle +:+ post.

(** Truth value of an [Optional[str]]: [None] and the empty string are false. *)
Definition truthy (p : option string) : bool :=
  match p with
  | None => false
  | Some EmptyString => false
  | Some (String _ _) => true
  end.

Arguments truthy : simpl never.

(** [isinstance(speaker_wav, np.ndarray)] *)
Definition is_ndarray {sample} (r : option (speaker_ref sample)) : bool :=
  match r with
  | Some (RefArray _) => true
  | _ => false
  end.

Section Engine.

Context {handle sample : Type} `{X : Externals handle sample}.

Definition init (model_name device : string) : engine handle :=
  {| model_name := model_name; device := device; model := None; is_loaded := false |}.

Definition set_model (m : option handle) (s : state handle) : state handle :=
  {| eng := {| model_name := model_name (eng s); device := device (eng s);
               model := m; is_loaded := is_loaded (eng s) |};
     wld := wld s |}.

Definition set_is_loaded (b : bool) (s : state handle) : state handle :=
  {| eng := {| model_name := model_name (eng s); device := device (eng s);
               model := model (eng s); is_loaded := b |};
     wld := wld s |}.

Definition set_fs (f : gset string -> gset string) (s : state handle) : state handle :=
  {| eng := eng s;
     wld := {| fs := f (fs (wld s)); constructions := constructions (wld s);
               tts_calls := tts_calls (wld s) |} |}.

(** The outcome of the construction [load_model] would perform in [s]. *)
Definition next_construction (s : state handle) : outcome handle :=
  TTS_to (model_name (eng s)) (device (eng s)) (constructions (wld s)).

(** The lambda handed to the executor by [load_model]. *)
Definition construct_TTS : M (state handle) handle := fun s =>
  (next_construction s,
   {| eng := eng s;
      wld := {| fs := fs (wld s); constructions := S (constructions (wld s));
                tts_calls := tts_calls (wld s) |} |}).

(** [self.model.tts(...)]: attribute lookup on [None] raises. *)
Definition call_tts (args : tts_args) : M (state handle) (list sample) := fun s =>
  match model (eng s) with
  | None => (Raise (AttributeError "'NoneType' object has no attribute 'tts'"), s)
  | Some h =>
      (model_tts h args (length (tts_calls (wld s))),
       {| eng := eng s;
          wld := {| fs := fs (wld s); constructions := constructions (wld s);
                    tts_calls := args :: tts_calls (wld s) |} |})
  end.

(** [tempfile.NamedTemporaryFile(suffix=..., delete=False)]: creates the
    file and yields its name. *)
Definition temp_path (suffix : string) (files : gset string) : string :=
  gettempdir +:+ "/" +:+ "tmp" +:+ tmp_infix files +:+ suffix.

Definition NamedTemporaryFile (suffix : string) : M (state handle) string := fun s =>
  let name := temp_path suffix (fs (wld s)) in
  (Ret name, set_fs (union {[name]}) s).

Definition soundfile_write (path : string) (data : list sample) (samplerate : Z)
  : M (state handle) unit := fun s =>
  match sf_write path data samplerate with
  | None => (Ret tt, set_fs (union {[path]}) s)
  | Some e => (Raise e, s)
  end.

(** [Path(p).unlink(missing_ok=True)] *)
Definition unlink (p : string) : M (state handle) unit :=
  modify (set_fs (fun files => files ∖ {[p]})).

(** *** engine_base.py *)

Definition unload_model : M (state handle) unit :=
  let! s := get in
  match model (eng s) with
  | Some _ => modify (set_model None) ;; modify (set_is_loaded false)
  | None => ret tt
  end.

(** *** coqui.py *)

(** What [load_model] does once the awaited construction has returned [h]. *)
Definition load_resume (h : handle) : M (state handle) unit :=
  modify (set_model (Some h)) ;;
  modify (set_is_loaded true).

Definition load_model : M (state handle) unit :=
  try_except
    (let! h := construct_TTS in load_resume h)
    (fun e => raise e).

(** [synthesize], block by block.  Lines 61-62: the lazy load. *)
Definition ensure_loaded : M (state handle) unit :=
  let! s := get in
  when (negb (is_loaded (eng s))) load_model.

(** Lines 64-71: the language check, then the length check. *)
Definition validate (text language : string) (kwargs : gmap string Z)
  : M (state handle) unit :=
  when (negb (bool_decide (language ∈ SUPPORTED_LANGUAGES)))
    (raise (ValueError (unsupported_language_message language))) ;;
  let max_length := default 500%Z (kwargs !! "max_length") in
  when (bool_decide (max_length < Z.of_nat (String.length text))%Z)
    (raise (ValueError (text_too_long_message max_length))).

(** Lines 77-86: the path handed to the model. *)
Definition resolve_speaker_wav (speaker_wav : option (speaker_ref sample))
  : M (state handle) (option string) :=
  match speaker_wav with
  | None => ret None
  | Some (RefStr p) | Some (RefPath p) => ret (Some p)
  | Some (RefArray a) | Some (RefOther a) =>
      let! name := NamedTemporaryFile ".wav" in
      soundfile_write name a 22050 ;;
      ret (Some name)
  end.

(** Lines 74-113: the body of the [try]. *)
Definition synthesize_try (text language : string)
    (speaker_wav : option (speaker_ref sample)) : M (state handle) (list sample) :=
  let! speaker_wav_path := resolve_speaker_wav speaker_wav in
  let! audio :=
    if truthy speaker_wav_path
    then call_tts {| a_text := text; a_speaker_wav := speaker_wav_path;
                     a_language := language |}
    else call_tts {| a_text := text; a_speaker_wav := None;
                     a_language := language |} in
  when (truthy speaker_wav_path && is_ndarray speaker_wav)
    (unlink (default EmptyString speaker_wav_path)) ;;
  ret (map float32 audio).

Definition synthesize (text language : string)
    (speaker_wav : option (speaker_ref sample)) (kwargs : gmap string Z)
  : M (state handle) (list sample) :=
  ensure_loaded ;;
  validate text language kwargs ;;
  try_except (synthesize_try text language speaker_wav) (fun e => raise e).

End Engine.

(** ** Two callers of [load_model] on one event loop

    [load_model] has one suspension point, the [await] of the executor job.
    A call is therefore a little machine: it submits the job and suspends,
    the executor runs the job, the call resumes with the job's outcome.  Two
    calls on the same engine interleave at these steps in any order. *)

Inductive task (handle : Type) : Type :=
| Start                             (* called, not yet run *)
| Submitted                         (* suspended at [await], job handed over *)
| Completed (r : outcome handle)    (* job finished, call not yet resumed *)
| Done (r : outcome unit).          (* returned or raised *)
Arguments Start {handle}.
Arguments Submitted {handle}.
Arguments Completed {handle} r.
Arguments Done {handle} r.

Inductive caller : Type := CallerA | CallerB.

Record pool (handle : Type) : Type := Pool {
  task_a : task handle;
  task_b : task handle;
  shared : state handle
}.
Arguments Pool {handle} _ _ _.
Arguments task_a {handle} _.
Arguments task_b {handle} _.
Arguments shared {handle} _.

Section Concurrent.

Context {handle sample : Type} `{X : Externals handle sample}.

Definition task_step (t : task handle) (s : state handle) : task handle * state handle :=
  match t with
  | Start => (Submitted, s)
  | Submitted => let (r, s') := construct_TTS s in (Completed r, s')
  | Completed (Ret h) => let (r, s') := load_resume h s in (Done r, s')
  | Completed (Raise e) => (Done (Raise e), s)
  | Done r => (Done r, s)
  end.

Definition pool_step (c : caller) (p : pool handle) : pool handle :=
  match c with
  | CallerA => let (t, s) := task_step (task_a p) (shared p) in Pool t (task_b p) s
  | CallerB => let (t, s) := task_step (task_b p) (shared p) in Pool (task_a p) t s
  end.

Definition run (sched : list caller) (p : pool handle) : pool handle :=
  fold_left (fun q c => pool_step c q) sched p.

Definition is_done (t : task handle) : bool :=
  match t with Done _ => true | _ => false end.

(** How far a call has come: 0 to 3 steps. *)
Definition stage (t : task handle) : nat :=
  match t with Start => 0 | Submitted => 1 | Completed _ => 2 | Done _ => 3 end.

(** How many of the steps of [sched] belong to caller [c]. *)
Fixpoint turns (c : caller) (sched : list caller) : nat :=
  match sched with
  | [] => 0
  | c' :: rest =>
      match c, c' with
      | CallerA, CallerA | CallerB, CallerB => S (turns c rest)
      | _, _ => turns c rest
      end
  end.

Definition succeeded (t : task handle) : bool :=
  match t with Done (Ret _) => true | _ => false end.

(** Number of executor jobs this call has had run. *)
Definition jobs_run (t : task handle) : nat :=
  match t with Start | Submitted => 0 | Completed _ | Done _ => 1 end.

Definition two_calls (s : state handle) : pool handle := Pool Start Start s.

(** What holds of the pool at every point of every schedule, counting
    constructions from [base]. *)
Definition pool_inv (base : nat) (p : pool handle) : Prop :=
  constructions (wld (shared p)) = base + jobs_run (task_a p) + jobs_run (task_b p)
  /\ (succeeded (task_a p) || succeeded (task_b p) = true ->
      is_loaded (eng (shared p)) = true /\ is_Some (model (eng (shared p)))).

End Concurrent.

(** ** The class attribute behind [get_supported_languages]

    [SUPPORTED_LANGUAGES] is one mutable list object owned by the class.  The
    heap maps object identities to list contents; [cls] is the identity of
    the class attribute. *)

Definition list_copy (src : positive) (h : gmap positive (list string))
  : option (positive * gmap positive (list string)) :=
  match h !! src with
  | Some l => let r := fresh (dom h) in Some (r, <[r := l]> h)
  | None => None
  end.

Definition get_supported_languages (cls : positive) (h : gmap positive (list string))
  : option (positive * gmap positive (list string)) :=
  list_copy cls h.

(** Any in-place mutation of the list object [r] ([append], [clear],
    item assignment, ...). *)
Definition list_mutate (r : positive) (f : list string -> list string)
    (h : gmap positive (list string)) : gmap positive (list string) :=
  alter f r h.

(** ** audio.py *)

(** The arithmetic numpy performs on one sample: [abs], the binary maximum
    that [np.max] folds, [*], [/] and [== 0]. *)
Class SampleOps (sample : Type) : Type := {
  fabs : sample -> sample;
  fmax : sample -> sample -> sample;
  fmul : sample -> sample -> sample;
  fdiv : sample -> sample -> sample;
  feq_zero : sample -> bool
}.

Section Audio.

Context {sample : Type} `{O : SampleOps sample}.

(** [librosa.effects.trim(audio, top_db=top_db)]: the trimmed signal and
    the interval it was cut from.  The function is third-party code. *)
Variable librosa_effects_trim : list sample -> Z -> outcome (list sample * (nat * nat)).

Definition np_abs (a : list sample) : list sample := map fabs a.

(** [np.max] has no identity: it raises on a zero-size array. *)
Definition np_max (a : list sample) : outcome sample :=
  match a with
  | [] => Raise (ValueError
            "zero-size array to reduction operation maximum which has no identity")
  | x :: rest => Ret (fold_left fmax rest x)
  end.

Definition normalize_audio (audio : list sample) (target_peak : sample)
  : outcome (list sample) :=
  match np_max (np_abs audio) with
  | Raise e => Raise e
  | Ret peak =>
      if feq_zero peak then Ret audio
      else match np_max (np_abs audio) with
           | Raise e => Raise e
           | Ret peak' => Ret (map (fun x => fmul x (fdiv target_peak peak')) audio)
           end
  end.

Definition trim_silence (audio : list sample) (top_db : Z) : outcome (list sample) :=
  match librosa_effects_trim audio top_db with
  | Raise e => Raise e
  | Ret (audio_trimmed, _) => Ret audio_trimmed
  end.

End Audio.

(** IEEE 754 binary64 samples, the arithmetic of a [float64] array.
    [np.maximum] propagates NaN. *)
Definition f64_maximum (a b : PrimFloat.float) : PrimFloat.float :=
  if PrimFloat.is_nan a then a
  else if PrimFloat.is_nan b then b
  else if PrimFloat.ltb a b then b else a.

Definition binary64 : SampleOps PrimFloat.float :=
  {| fabs := PrimFloat.abs;
     fmax := f64_maximum;
     fmul := PrimFloat.mul;
     fdiv := PrimFloat.div;
     feq_zero := fun x => PrimFloat.eqb x PrimFloat.zero |}.

(** The smallest positive binary64 number, [2^-1074] (about [4.9e-324]),
    and the default target peak, the double nearest to [0.95].  The exponent
    argument of [ldshiftexp] is offset by 2101. *)
Definition f64_tiny : PrimFloat.float :=
  PrimFloat.ldshiftexp PrimFloat.one (Uint63.of_Z (2101 - 1074)).

Definition f64_default_peak : PrimFloat.float :=
  PrimFloat.div (PrimFloat.of_uint63 (Uint63.of_Z 95)) (PrimFloat.of_uint63 (Uint63.of_Z 100)).

(** ** Construction of the engine: [__init__] and [_get_device]

    The configuration is the dictionary passed to [__init__]; the two keys the
    engine reads hold strings, as [TTSEngineConfig] types them. *)

(** What [torch] reports about the machine. *)
Record hardware : Type := Hardware {
  cuda_is_available : bool;      (* [torch.cuda.is_available()] *)
  has_mps_backend : bool;        (* [hasattr(torch.backends, 'mps')] *)
  mps_is_available : bool        (* [torch.backends.mps.is_available()] *)
}.

Definition _get_device (config : gmap string string) (hw : hardware) : string :=
  let device := default "auto" (config !! "device") in
  if bool_decide (device = "auto") then
    if cuda_is_available hw then "cuda"
    else if has_mps_backend hw && mps_is_available hw then "mps"
    else "cpu"
  else device.

Definition CoquiXTTSEngine_init {handle : Type} (config : gmap string string)
    (hw : hardware) : engine handle :=
  init (default "tts_models/multilingual/multi-dataset/xtts_v2" (config !! "model_path"))
       (_get_device config hw).

(** The dictionary [health_check] returns.  [config] is [self.config], the
    dictionary the engine was built from, which no method assigns. *)
Record health : Type := Health {
  h_engine : string;
  h_loaded : bool;
  h_config : gmap string string
}.

Definition health_check {handle : Type} (config : gmap string string)
  : M (state handle) health :=
  let! s := get in
  ret {| h_engine := "CoquiXTTSEngine"; h_loaded := is_loaded (eng s);
         h_config := config |}.

(** The engine holds a handle exactly when it says it is loaded. *)
Definition consistent {handle : Type} (e : engine handle) : Prop :=
  is_loaded e = true <-> is_Some (model e).

(** The path a caller passed as reference audio, as the model receives it:
    nothing for a missing or empty one. *)
Definition caller_path {sample : Type} (speaker_wav : option (speaker_ref sample))
  : option string :=
  match speaker_wav with
  | Some (RefStr p) | Some (RefPath p) => if truthy (Some p) then Some p else None
  | _ => None
  end.

(** [speaker_wav] is neither absent nor a path: the engine writes it to a
    temporary file. *)
Definition is_buffer {sample : Type} (speaker_wav : option (speaker_ref sample)) : bool :=
  match speaker_wav with
  | Some (RefArray _) | Some (RefOther _) => true
  | _ => false
  end.

(** ** config.py: load_config

    The disk holds regular files and directories.  [yaml.safe_load] and the
    pydantic constructor [AppConfig] are third-party calls.  What
    [safe_load] returns is either usable as keyword arguments (a mapping with
    string keys) or not (the [None] of an empty document, a list, a scalar);
    in the second case [AppConfig( **config_data)] raises [TypeError] with the
    message [why]. *)

Inductive inode : Type :=
| File (content : string)
| Directory.

Inductive yaml_doc (value : Type) : Type :=
| YKeywords (kwargs : list (string * value))
| YNotKeywords (why : string).
Arguments YKeywords {value} kwargs.
Arguments YNotKeywords {value} why.

Class ConfigExternals (value app_config : Type) : Type := {
  yaml_safe_load : string -> outcome (yaml_doc value);
  (** [AppConfig( **kwargs)]; it also reads the environment and [.env]. *)
  AppConfig_new : list (string * value) -> outcome app_config
}.

Record disk_world : Type := DiskWorld {
  disk : gmap string inode;     (* what exists, by path *)
  opened : list string           (* the paths [open] has opened, latest first *)
}.

Section Config.

Context {value app_config : Type} `{C : ConfigExternals value app_config}.

(** An outcome decided outside the state. *)
Definition lift {A : Type} (r : outcome A) : M disk_world A := fun w => (r, w).

(** [Path(p).exists()] *)
Definition path_exists (p : string) : M disk_world bool :=
  let! w := get in ret (bool_decide (is_Some (disk w !! p))).

(** [open(p, 'r')] followed by reading the whole file. *)
Definition open_and_read (p : string) : M disk_world string := fun w =>
  match disk w !! p with
  | None => (Raise (Exn "FileNotFoundError" p), w)
  | Some Directory => (Raise (Exn "IsADirectoryError" p), w)
  | Some (File content) =>
      (Ret content, {| disk := disk w; opened := p :: opened w |})
  end.

Definition load_config (config_path : option string) : M disk_world app_config :=
  let! found :=
    if truthy config_path then path_exists (default EmptyString config_path)
    else ret false in
  if found then
    let! text := open_and_read (default EmptyString config_path) in
    let! config_data := lift (yaml_safe_load text) in
    match config_data with
    | YKeywords kwargs => lift (AppConfig_new kwargs)
    | YNotKeywords why => raise (Exn "TypeError" why)
    end
  else lift (AppConfig_new []).

End Config.

(** ** Two callers of [synthesize] on one event loop

    [synthesize] suspends at most twice: inside [load_model], at the [await]
    of the construction job, and at the [await] of the inference job.
    Between two suspensions a call runs without interruption. *)

Record request (sample : Type) : Type := Request {
  r_text : string;
  r_language : string;
  r_speaker_wav : option (speaker_ref sample);
  r_kwargs : gmap string Z
}.
Arguments Request {sample} _ _ _ _.
Arguments r_text {sample} _.
Arguments r_language {sample} _.
Arguments r_speaker_wav {sample} _.
Arguments r_kwargs {sample} _.

Inductive stask (handle sample : Type) : Type :=
| SStart                                  (* called, not yet run *)
| SLoading                                (* suspended in [load_model] *)
| SLoaded (r : outcome handle)            (* construction finished, not resumed *)
| SInferring (path : option string)       (* suspended at the inference job *)
| SInferred (path : option string) (r : outcome (list sample))
                                          (* inference finished, not resumed *)
| SDone (r : outcome (list sample)).      (* returned or raised *)
Arguments SStart {handle sample}.
Arguments SLoading {handle sample}.
Arguments SLoaded {handle sample} r.
Arguments SInferring {handle sample} path.
Arguments SInferred {handle sample} path r.
Arguments SDone {handle sample} r.

Record spool (handle sample : Type) : Type := SPool {
  stask_a : stask handle sample;
  stask_b : stask handle sample;
  sshared : state handle
}.
Arguments SPool {handle sample} _ _ _.
Arguments stask_a {handle sample} _.
Arguments stask_b {handle sample} _.
Arguments sshared {handle sample} _.

Section ConcurrentSynthesize.

Context {handle sample : Type} `{X : Externals handle sample}.

(** From the language check to the submission of the inference job
    (lines 64-91). *)
Definition after_load (q : request sample) (s : state handle)
  : stask handle sample * state handle :=
  match validate (r_text q) (r_language q) (r_kwargs q) s with
  | (Raise e, s') => (SDone (Raise e), s')
  | (Ret _, s') =>
      match resolve_speaker_wav (r_speaker_wav q) s' with
      | (Raise e, s'') => (SDone (Raise e), s'')
      | (Ret path, s'') => (SInferring path, s'')
      end
  end.

(** The lambda handed to the executor by [synthesize]. *)
Definition infer_job (q : request sample) (path : option string)
  : M (state handle) (list sample) :=
  if truthy path
  then call_tts {| a_text := r_text q; a_speaker_wav := path;
                   a_language := r_language q |}
  else call_tts {| a_text := r_text q; a_speaker_wav := None;
                   a_language := r_language q |}.

(** Lines 109-113: clean up and return. *)
Definition finish (q : request sample) (path : option string) (audio : list sample)
  : M (state handle) (list sample) :=
  when (truthy path && is_ndarray (r_speaker_wav q))
    (unlink (default EmptyString path)) ;;
  ret (map float32 audio).

Definition stask_step (q : request sample) (t : stask handle sample) (s : state handle)
  : stask handle sample * state handle :=
  match t with
  | SStart => if is_loaded (eng s) then after_load q s else (SLoading, s)
  | SLoading => let (r, s') := construct_TTS s in (SLoaded r, s')
  | SLoaded (Ret h) => let (_, s') := load_resume h s in after_load q s'
  | SLoaded (Raise e) => (SDone (Raise e), s)
  | SInferring path => let (r, s') := infer_job q path s in (SInferred path r, s')
  | SInferred path (Ret audio) => let (r, s') := finish q path audio s in (SDone r, s')
  | SInferred path (Raise e) => (SDone (Raise e), s)
  | SDone r => (SDone r, s)
  end.

(** One call run alone for [n] steps. *)
Fixpoint run_alone (q : request sample) (n : nat) (t : stask handle sample)
    (s : state handle) : stask handle sample * state handle :=
  match n with
  | 0 => (t, s)
  | S n' => let (t', s') := stask_step q t s in run_alone q n' t' s'
  end.

Definition spool_step (qa qb : request sample) (c : caller) (p : spool handle sample)
  : spool handle sample :=
  match c with
  | CallerA => let (t, s) := stask_step qa (stask_a p) (sshared p) in SPool t (stask_b p) s
  | CallerB => let (t, s) := stask_step qb (stask_b p) (sshared p) in SPool (stask_a p) t s
  end.

Definition srun (qa qb : request sample) (sched : list caller) (p : spool handle sample)
  : spool handle sample :=
  fold_left (fun q c => spool_step qa qb c q) sched p.



(** The call is past its lazy load (or never needed one). *)
Definition past_load (t : stask handle sample) : bool :=
  match t with SInferring _ | SInferred _ _ | SDone _ => true | _ => false end.


Definition two_requests (s : state handle) : spool handle sample := SPool SStart SStart s.


(** The first call has loaded the engine before the second one starts. *)
Definition serial_inv (total : nat) (p : spool handle sample) : Prop :=
  is_loaded (eng (sshared p)) = true
  /\ past_load (stask_a p) = true
  /\ (stask_b p = SStart \/ past_load (stask_b p) = true)
  /\ constructions (wld (sshared p)) = total.

End ConcurrentSynthesize.

(** ** Scripted externals for the examples

    Handles are numbers, samples are integers.  [construct k] is the outcome
    of construction number [k], [infer] the outcome of every [model.tts]
    call, [write] that of every [soundfile.write]. *)

Definition scripted (construct : nat -> outcome nat) (infer : outcome (list Z))
    (write : option exn) : Externals nat Z :=
  {| TTS_to := fun _ _ k => construct k;
     model_tts := fun _ _ _ => infer;
     sf_write := fun _ _ _ => write;
     gettempdir := "/tmp";
     tmp_infix := fun _ => "k3x9_q2a";
     float32 := fun x => x |}.

(** Every construction succeeds and yields the handle numbered after it;
    inference returns three samples. *)
Definition healthy : Externals nat Z :=
  scripted (fun k => Ret k) (Ret [3; -1; 4]%Z) None.

(** The model cannot be constructed. *)
Definition no_weights : Externals nat Z :=
  scripted (fun _ => Raise (Exn "RuntimeError" "out of memory")) (Ret [3; -1; 4]%Z) None.

(** The first construction fails, later ones succeed. *)
Definition second_try : Externals nat Z :=
  scripted (fun k => match k with
                     | 0 => Raise (Exn "RuntimeError" "out of memory")
                     | _ => Ret k
                     end) (Ret [3; -1; 4]%Z) None.

(** Construction succeeds, inference raises. *)
Definition broken_inference : Externals nat Z :=
  scripted (fun k => Ret k) (Raise (Exn "RuntimeError" "inference failed")) None.

Definition empty_world : world := {| fs := ∅; constructions := 0; tts_calls := [] |}.

(** A freshly constructed engine. *)
Definition fresh_state : state nat :=
  {| eng := init "tts_models/multilingual/multi-dataset/xtts_v2" "cpu";
     wld := empty_world |}.

(** An engine after one successful load, with the caller's file on disk. *)
Definition loaded_state : state nat :=
  {| eng := {| model_name := "tts_models/multilingual/multi-dataset/xtts_v2";
               device := "cpu"; model := Some 0; is_loaded := true |};
     wld := {| fs := {[ "/data/voice.wav" ]}; constructions := 1; tts_calls := [] |} |}.

Fixpoint repeat_char (n : nat) (c : Ascii.ascii) : string :=
  match n with
  | 0 => EmptyString
  | S m => String c (repeat_char m c)
  end.

(** A text of 501 letters [a]. *)
Definition text_501 : string := repeat_char 501 (Ascii.ascii_of_nat 97).

(** Scripted configuration externals: a non-empty document is a mapping
    with the single key [log_level], the empty document is null; the
    constructor returns the keyword arguments it was given. *)
Definition scripted_config : ConfigExternals string (list (string * string)) :=
  {| yaml_safe_load := fun text =>
       match text with
       | String _ _ => Ret (YKeywords [("log_level", text)])
       | EmptyString =>
           Ret (YNotKeywords "argument after ** must be a mapping, not NoneType")
       end;
     AppConfig_new := fun kwargs => Ret kwargs |}.

Definition demo_disk : disk_world :=
  {| disk := {[ "/etc/app.yaml" := File "DEBUG"; "/etc/empty.yaml" := File EmptyString;
                 "/etc" := Directory ]};
     opened := [] |}.

(** A machine with both accelerators. *)
Definition both_accelerators : hardware :=
  {| cuda_is_available := true; has_mps_backend := true; mps_is_available := true |}.

(** Construction and inference succeed, writing a file fails. *)
Definition disk_full : Externals nat Z :=
  scripted (fun k => Ret k) (Ret [3; -1; 4]%Z) (Some (Exn "OSError" "No space left on device")).

(** Two requests for the examples. *)
Definition hello_request : request Z :=
  {| r_text := "hello"; r_language := "en"; r_speaker_wav := None; r_kwargs := ∅ |}.

Definition clone_request : request Z :=
  {| r_text := "bonjour"; r_language := "fr";
     r_speaker_wav := Some (RefArray [1; 2; 3]%Z); r_kwargs := ∅ |}.

(** * Properties *)

(** ** Running the monad *)

Ltac run_monad :=
  unfold synthesize, synthesize_try, resolve_speaker_wav, validate, ensure_loaded,
    load_model, load_resume, unload_model, unlink,
    soundfile_write, NamedTemporaryFile, call_tts, construct_TTS,
    next_construction, try_except, when, bind, ret, raise, get, modify,
    set_model, set_is_loaded, set_fs in *;
  simpl in *.

(** ** Frame rules *)

Section Frame.

Context {S B : Type} (f : S -> B).

Lemma preserves_ret {A} (a : A) : preserves f (ret a).
Proof. by intros s. Qed.

Lemma preserves_raise {A} (e : exn) : preserves f (raise (A := A) e).
Proof. by intros s. Qed.

Lemma preserves_get : preserves f get.
Proof. by intros s. Qed.

Lemma preserves_modify (g : S -> S) : (forall s, f (g s) = f s) -> preserves f (modify g).
Proof. intros Hg s. apply Hg. Qed.

Lemma preserves_bind {A A'} (c : M S A) (k : A -> M S A') :
  preserves f c -> (forall a, preserves f (k a)) -> preserves f (bind c k).
Proof.
  intros Hc Hk s. unfold bind. specialize (Hc s).
  destruct (c s) as [[a|e] s']; simpl in *; [|done].
  by rewrite Hk.
Qed.

Lemma preserves_try {A} (c : M S A) (h : exn -> M S A) :
  preserves f c -> (forall e, preserves f (h e)) -> preserves f (try_except c h).
Proof.
  intros Hc Hh s. unfold try_except. specialize (Hc s).
  destruct (c s) as [[a|e] s']; simpl in *; [done|].
  by rewrite Hh.
Qed.

Lemma preserves_when (b : bool) (c : M S unit) :
  preserves f c -> preserves f (when b c).
Proof. intros Hc. destruct b; [done|apply preserves_ret]. Qed.

End Frame.

Create HintDb frame.
#[export] Hint Resolve preserves_ret preserves_raise preserves_get preserves_bind
  preserves_try preserves_when : frame.

Section LoadModel.

Context {handle sample : Type} `{X : Externals handle sample}.

Lemma load_model_ok (s : state handle) (h : handle) :
  next_construction s = Ret h ->
  load_model s =
    (Ret tt,
     {| eng := {| model_name := model_name (eng s); device := device (eng s);
                  model := Some h; is_loaded := true |};
        wld := {| fs := fs (wld s); constructions := S (constructions (wld s));
                  tts_calls := tts_calls (wld s) |} |}).
Proof. unfold next_construction. intros E. run_monad. by rewrite E. Qed.

Lemma load_model_raises (s : state handle) (e : exn) :
  next_construction s = Raise e ->
  load_model s =
    (Raise e,
     {| eng := eng s;
        wld := {| fs := fs (wld s); constructions := S (constructions (wld s));
                  tts_calls := tts_calls (wld s) |} |}).
Proof. unfold next_construction. intros E. run_monad. by rewrite E. Qed.

(** Whatever its outcome, one call is one construction, and it touches
    neither the disk nor the inference log. *)
Lemma load_model_world (s : state handle) :
  constructions (wld (load_model s).2) = S (constructions (wld s))
  /\ fs (wld (load_model s).2) = fs (wld s)
  /\ tts_calls (wld (load_model s).2) = tts_calls (wld s).
Proof.
  destruct (next_construction s) as [h|e] eqn:E.
  - by rewrite (load_model_ok _ _ E).
  - by rewrite (load_model_raises _ _ E).
Qed.

End LoadModel.

(** ** Messages *)

Lemma string_app_assoc (a b c : string) : (a +:+ b) +:+ c = a +:+ b +:+ c.
Proof.
  induction a as [|x a IH]; [done|].
  change (String x ((a +:+ b) +:+ c) = String x (a +:+ b +:+ c)). by rewrite IH.
Qed.

Lemma string_app_empty_r (a : string) : a +:+ EmptyString = a.
Proof.
  induction a as [|x a IH]; [done|].
  change (String x (a +:+ EmptyString) = String x a). by rewrite IH.
Qed.

Lemma occurs_in_refl (x : string) : occurs_in x x.
Proof. exists EmptyString, EmptyString. by rewrite string_app_empty_r. Qed.

Lemma occurs_in_app (x a b c : string) :
  occurs_in x b -> occurs_in x (a +:+ b +:+ c).
Proof.
  intros (pre & post & ->). exists (a +:+ pre), (post +:+ c).
  by rewrite !string_app_assoc.
Qed.

Lemma occurs_in_join (sep x : string) (l : list string) :
  x ∈ l -> occurs_in x (join sep l).
Proof.
  induction l as [|y l IH]; [by intros ?%elem_of_nil|].
  intros [->|Hin]%elem_of_cons.
  - destruct l as [|z l]; [apply occurs_in_refl|].
    exists EmptyString, (sep +:+ join sep (z :: l)). done.
  - destruct l as [|z l]; [by apply elem_of_nil in Hin|].
    change (join sep (y :: z :: l)) with (y +:+ sep +:+ join sep (z :: l)).
    rewrite <-(string_app_empty_r (join sep (z :: l))), <-string_app_assoc.
    by apply occurs_in_app, IH.
Qed.

Lemma occurs_in_py_repr_list (x : string) (l : list string) :
  x ∈ l -> occurs_in x (py_repr_list l).
Proof.
  intros Hin. unfold py_repr_list. apply occurs_in_app.
  assert (occurs_in (py_repr_str x) (join ", " (map py_repr_str l))) as (pre & post & ->).
  { apply occurs_in_join, list_elem_of_fmap. by exists x. }
  apply occurs_in_app. unfold py_repr_str.
  apply occurs_in_app, occurs_in_refl.
Qed.

Lemma unsupported_language_message_names (language : string) :
  occurs_in language (unsupported_language_message language).
Proof. by exists "Language '", ("' not supported. Available: " +:+ py_repr_list SUPPORTED_LANGUAGES). Qed.

Lemma unsupported_language_message_lists (language code : string) :
  code ∈ SUPPORTED_LANGUAGES -> occurs_in code (unsupported_language_message language).
Proof.
  intros Hin. unfold unsupported_language_message.
  rewrite <-(string_app_empty_r (py_repr_list _)).
  rewrite <-(string_app_assoc language), <-(string_app_assoc "Language '").
  by apply occurs_in_app, occurs_in_py_repr_list.
Qed.

(** ** synthesize *)

Section Synthesize.

Context {handle sample : Type} `{X : Externals handle sample}.

Implicit Types (s : state handle) (text language : string)
  (speaker_wav : option (speaker_ref sample)) (kwargs : gmap string Z).

(** *** The blocks, one at a time *)

Lemma try_reraise {A} (body : M (state handle) A) s :
  try_except body (fun e => raise e) s = body s.
Proof. unfold try_except, raise. by destruct (body s) as [[a|e] s']. Qed.

Lemma ensure_loaded_loaded s :
  is_loaded (eng s) = true -> ensure_loaded s = (Ret tt, s).
Proof. intros Hl. unfold ensure_loaded, bind, get, when. by rewrite Hl. Qed.

Lemma ensure_loaded_unloaded s :
  is_loaded (eng s) = false -> ensure_loaded s = load_model s.
Proof. intros Hl. unfold ensure_loaded, bind, get, when. by rewrite Hl. Qed.

Lemma ensure_loaded_world s :
  fs (wld (ensure_loaded s).2) = fs (wld s)
  /\ tts_calls (wld (ensure_loaded s).2) = tts_calls (wld s).
Proof.
  destruct (is_loaded (eng s)) eqn:Hl.
  - by rewrite ensure_loaded_loaded.
  - rewrite ensure_loaded_unloaded by done.
    by destruct (load_model_world s) as (_ & ? & ?).
Qed.

Lemma validate_state text language kwargs s :
  (validate text language kwargs s).2 = s.
Proof. unfold validate, bind, when, raise, ret. by repeat case_match; simplify_eq/=. Qed.

Lemma validate_unsupported text language kwargs s :
  language ∉ SUPPORTED_LANGUAGES ->
  (validate text language kwargs s).1
  = Raise (ValueError (unsupported_language_message language)).
Proof.
  intros Hn. unfold validate, bind, when. by rewrite (bool_decide_eq_false_2 _ Hn).
Qed.

Lemma validate_too_long text language kwargs s :
  language ∈ SUPPORTED_LANGUAGES ->
  (default 500 (kwargs !! "max_length") < Z.of_nat (String.length text))%Z ->
  (validate text language kwargs s).1
  = Raise (ValueError (text_too_long_message (default 500%Z (kwargs !! "max_length")))).
Proof.
  intros Hin Hlen. unfold validate, bind, when.
  rewrite (bool_decide_eq_true_2 _ Hin). simpl.
  by rewrite (bool_decide_eq_true_2 _ Hlen).
Qed.

Lemma validate_ok text language kwargs s :
  language ∈ SUPPORTED_LANGUAGES ->
  (Z.of_nat (String.length text) <= default 500 (kwargs !! "max_length"))%Z ->
  (validate text language kwargs s).1 = Ret tt.
Proof.
  intros Hin Hlen. unfold validate, bind, when.
  rewrite (bool_decide_eq_true_2 _ Hin). simpl.
  by rewrite bool_decide_eq_false_2 by lia.
Qed.

(** [synthesize] is its three blocks in sequence; the [except] clause
    re-raises what it caught. *)
Lemma synthesize_blocks text language speaker_wav kwargs s :
  synthesize text language speaker_wav kwargs s =
    match (ensure_loaded s).1 with
    | Raise e => (Raise e, (ensure_loaded s).2)
    | Ret _ =>
        match (validate text language kwargs (ensure_loaded s).2).1 with
        | Raise e => (Raise e, (ensure_loaded s).2)
        | Ret _ => synthesize_try text language speaker_wav (ensure_loaded s).2
        end
    end.
Proof.
  unfold synthesize, bind at 1.
  destruct (ensure_loaded s) as [[[]|e] s1]; [|done]. simpl.
  unfold bind at 1.
  pose proof (validate_state text language kwargs s1) as Hv.
  destruct (validate text language kwargs s1) as [[[]|e] s2]; simpl in *; subst; [|done].
  apply try_reraise.
Qed.

(** The name [tempfile] hands out is never the empty string. *)
Lemma truthy_temp_path (suffix : string) (files : gset string) :
  truthy (Some (temp_path suffix files)) = true.
Proof. unfold temp_path. by destruct gettempdir. Qed.

(** Every path of [synthesize] leaves the [tts] log alone until the [try]. *)
Lemma synthesize_no_inference_unless_valid text language speaker_wav kwargs s :
  (validate text language kwargs (ensure_loaded s).2).1 <> Ret tt ->
  tts_calls (wld (synthesize text language speaker_wav kwargs s).2) = tts_calls (wld s)
  /\ fs (wld (synthesize text language speaker_wav kwargs s).2) = fs (wld s).
Proof.
  intros Hv. rewrite synthesize_blocks.
  destruct (ensure_loaded_world s) as [Hfs Hcalls].
  destruct (ensure_loaded s).1 as [[]|e]; [|done].
  destruct (validate _ _ _ _).1 as [[]|e]; done.
Qed.

(** *** Requests that fail validation *)

(** C2, as the code has it.  For every call with a language code outside
    the supported set, [model.tts] is never invoked.  When the engine is
    loaded, or its lazy load succeeds, the call fails with the
    [ValueError] whose message names the rejected code and lists every
    valid code.  The lazy load runs before validation, so on an unloaded
    engine whose model construction raises, the call fails with that
    exception instead. *)
Theorem synthesize_rejects_unsupported_language s text language speaker_wav kwargs :
  language ∉ SUPPORTED_LANGUAGES ->
  tts_calls (wld (synthesize text language speaker_wav kwargs s).2) = tts_calls (wld s)
  /\ (is_loaded (eng s) = true \/ (exists h, next_construction s = Ret h) ->
      (synthesize text language speaker_wav kwargs s).1
      = Raise (ValueError (unsupported_language_message language)))
  /\ (forall e, is_loaded (eng s) = false -> next_construction s = Raise e ->
      (synthesize text language speaker_wav kwargs s).1 = Raise e)
  /\ occurs_in language (unsupported_language_message language)
  /\ forall code, code ∈ SUPPORTED_LANGUAGES ->
       occurs_in code (unsupported_language_message language).
Proof.
  intros Hn.
  split; [|split; [|split; [|split]]].
  - apply synthesize_no_inference_unless_valid.
    by rewrite validate_unsupported.
  - intros Hgood. rewrite synthesize_blocks.
    assert ((ensure_loaded s).1 = Ret tt) as ->.
    { destruct (is_loaded (eng s)) eqn:Hl; [by rewrite ensure_loaded_loaded|].
      destruct Hgood as [?|[h E]]; [done|].
      rewrite ensure_loaded_unloaded by done. by rewrite (load_model_ok _ _ E). }
    by rewrite validate_unsupported.
  - intros e Hl E. rewrite synthesize_blocks, ensure_loaded_unloaded by done.
    by rewrite (load_model_raises _ _ E).
  - apply unsupported_language_message_names.
  - intros code. apply unsupported_language_message_lists.
Qed.

(** C3, as the code has it.  For every call with a supported language
    whose text is longer than [max_length] (default 500), no inference is
    performed and the disk is untouched.  On a loaded engine the call
    fails with the [ValueError] reporting the limit and changes nothing: no
    load, no inference.  On an unloaded engine the lazy load comes first:
    one model construction is performed, and when it succeeds the call
    then fails with the same [ValueError]. *)
Theorem synthesize_rejects_long_text s text language speaker_wav kwargs :
  language ∈ SUPPORTED_LANGUAGES ->
  (default 500 (kwargs !! "max_length") < Z.of_nat (String.length text))%Z ->
  tts_calls (wld (synthesize text language speaker_wav kwargs s).2) = tts_calls (wld s)
  /\ fs (wld (synthesize text language speaker_wav kwargs s).2) = fs (wld s)
  /\ (is_loaded (eng s) = true ->
      synthesize text language speaker_wav kwargs s
      = (Raise (ValueError (text_too_long_message (default 500%Z (kwargs !! "max_length")))), s))
  /\ (is_loaded (eng s) = false ->
      constructions (wld (synthesize text language speaker_wav kwargs s).2)
      = S (constructions (wld s)))
  /\ (forall h, is_loaded (eng s) = false -> next_construction s = Ret h ->
      (synthesize text language speaker_wav kwargs s).1
      = Raise (ValueError (text_too_long_message (default 500%Z (kwargs !! "max_length")))))
  /\ occurs_in (pretty (default 500%Z (kwargs !! "max_length")))
       (text_too_long_message (default 500%Z (kwargs !! "max_length"))).
Proof.
  intros Hin Hlen.
  pose proof (fun s' => validate_too_long text language kwargs s' Hin Hlen) as Hv.
  assert (tts_calls (wld (synthesize text language speaker_wav kwargs s).2)
            = tts_calls (wld s)
          /\ fs (wld (synthesize text language speaker_wav kwargs s).2) = fs (wld s))
    as [Hcalls Hfs].
  { apply synthesize_no_inference_unless_valid. by rewrite Hv. }
  do 2 (split; [done|]).
  split; [|split; [|split]].
  - intros Hl. by rewrite synthesize_blocks, ensure_loaded_loaded, Hv.
  - intros Hl. rewrite synthesize_blocks, ensure_loaded_unloaded, Hv by done.
    destruct (load_model_world s) as (Hcons & _ & _).
    by destruct (load_model s).1 as [[]|e].
  - intros h Hl E. rewrite synthesize_blocks, ensure_loaded_unloaded, Hv by done.
    by rewrite (load_model_ok _ _ E).
  - by exists "Text too long. Maximum ", " characters allowed.".
Qed.

(** *** The disk *)

Lemma resolve_speaker_wav_path speaker_wav s :
  match speaker_wav with
  | Some (RefArray _) | Some (RefOther _) => False
  | _ => True
  end ->
  (resolve_speaker_wav speaker_wav s).2 = s.
Proof. by destruct speaker_wav as [[p|p|a|a]|]. Qed.

Lemma synthesize_try_fs_path text language speaker_wav s :
  match speaker_wav with
  | Some (RefArray _) | Some (RefOther _) => False
  | _ => True
  end ->
  fs (wld (synthesize_try text language speaker_wav s).2) = fs (wld s).
Proof.
  intros Hk. unfold synthesize_try, bind at 1.
  pose proof (resolve_speaker_wav_path speaker_wav s Hk) as Hr.
  assert (is_ndarray speaker_wav = false) as Hnd
    by (by destruct speaker_wav as [[p|p|a|a]|]).
  destruct (resolve_speaker_wav speaker_wav s) as [[path|e] s1]; simpl in Hr; subst s1;
    [|done].
  rewrite Hnd, andb_false_r.
  unfold bind, when, ret, call_tts.
  repeat case_match; by simplify_eq/=.
Qed.

Lemma synthesize_try_fs_lower text language speaker_wav s :
  fs (wld s) ∖ {[ temp_path ".wav" (fs (wld s)) ]}
  ⊆ fs (wld (synthesize_try text language speaker_wav s).2).
Proof.
  destruct speaker_wav as [[p|p|a|a]|].
  1,2,5: rewrite synthesize_try_fs_path by done; set_unfold; tauto.
  all: unfold synthesize_try, resolve_speaker_wav, NamedTemporaryFile,
         soundfile_write, bind, ret; simpl;
       destruct (sf_write _ _ _) as [e|]; simpl; [set_unfold; tauto|];
       rewrite truthy_temp_path; unfold call_tts; simpl;
       destruct (model (eng s)) as [h|]; simpl; [|set_unfold; tauto];
       destruct (model_tts _ _ _) as [audio|e]; simpl; set_unfold; tauto.
Qed.

(** C8. For every call whose reference audio is a file path [p] (a [str]
    or a [Path]) that exists before the call, [p] still exists when the
    call returns or raises; indeed such a call leaves the set of existing
    files exactly as it was.  For any kind of reference audio, the only
    path the engine can remove is the temporary file it creates itself. *)
Theorem synthesize_keeps_caller_file s text language speaker_wav kwargs p :
  speaker_wav = Some (RefStr p) \/ speaker_wav = Some (RefPath p) ->
  p ∈ fs (wld s) ->
  p ∈ fs (wld (synthesize text language speaker_wav kwargs s).2)
  /\ fs (wld (synthesize text language speaker_wav kwargs s).2) = fs (wld s)
  /\ forall any_wav q,
       q ∈ fs (wld s) ->
       q ≠ temp_path ".wav" (fs (wld s)) ->
       q ∈ fs (wld (synthesize text language any_wav kwargs s).2).
Proof.
  intros Hp Hin.
  destruct (ensure_loaded_world s) as [Hfs _].
  assert (fs (wld (synthesize text language speaker_wav kwargs s).2) = fs (wld s)) as Heq.
  { rewrite synthesize_blocks.
    destruct (ensure_loaded s).1 as [[]|e]; [|done].
    destruct (validate _ _ _ _).1 as [[]|e]; [|done].
    rewrite synthesize_try_fs_path; [done|]. by destruct Hp as [-> | ->]. }
  split; [by rewrite Heq|]. split; [done|].
  intros any_wav q Hq Hne. rewrite synthesize_blocks.
  destruct (ensure_loaded s).1 as [[]|e]; [|simpl; by rewrite Hfs].
  destruct (validate _ _ _ _).1 as [[]|e]; [|simpl; by rewrite Hfs].
  apply synthesize_try_fs_lower. rewrite Hfs. set_unfold. tauto.
Qed.

(** *** The temporary file of an in-memory reference buffer *)

Lemma synthesize_try_array text language a s h :
  model (eng s) = Some h ->
  sf_write (temp_path ".wav" (fs (wld s))) a 22050 = None ->
  let tmp := temp_path ".wav" (fs (wld s)) in
  let args := {| a_text := text; a_speaker_wav := Some tmp; a_language := language |} in
  match model_tts h args (length (tts_calls (wld s))) with
  | Ret audio =>
      (synthesize_try text language (Some (RefArray a)) s).1 = Ret (map float32 audio)
      /\ tmp ∉ fs (wld (synthesize_try text language (Some (RefArray a)) s).2)
  | Raise e =>
      (synthesize_try text language (Some (RefArray a)) s).1 = Raise e
      /\ tmp ∈ fs (wld (synthesize_try text language (Some (RefArray a)) s).2)
  end.
Proof.
  intros Hm Hw. cbv zeta.
  unfold synthesize_try, resolve_speaker_wav, NamedTemporaryFile, soundfile_write,
    bind, ret. simpl. rewrite Hw. simpl.
  rewrite truthy_temp_path.
  unfold call_tts, when, unlink, modify. simpl. rewrite Hm.
  destruct (model_tts h _ _) as [audio|e]; simpl.
  - split; [done|]. set_unfold. tauto.
  - split; [done|]. set_unfold. tauto.
Qed.

(** On a loaded engine and a valid request, a successful inference ends
    with the temporary file removed. *)
Lemma synthesize_array_returns s text language a kwargs h audio :
  is_loaded (eng s) = true ->
  model (eng s) = Some h ->
  language ∈ SUPPORTED_LANGUAGES ->
  (Z.of_nat (String.length text) <= default 500 (kwargs !! "max_length"))%Z ->
  sf_write (temp_path ".wav" (fs (wld s))) a 22050 = None ->
  model_tts h {| a_text := text;
                 a_speaker_wav := Some (temp_path ".wav" (fs (wld s)));
                 a_language := language |} (length (tts_calls (wld s))) = Ret audio ->
  (synthesize text language (Some (RefArray a)) kwargs s).1 = Ret (map float32 audio)
  /\ temp_path ".wav" (fs (wld s))
     ∉ fs (wld (synthesize text language (Some (RefArray a)) kwargs s).2).
Proof.
  intros Hl Hm Hin Hlen Hw Ht.
  rewrite synthesize_blocks, ensure_loaded_loaded by done. simpl.
  rewrite validate_ok by done.
  pose proof (synthesize_try_array text language a s h Hm Hw) as Hb.
  simpl in Hb. by rewrite Ht in Hb.
Qed.

(** On the same request, an inference that raises leaves the temporary
    file on disk: the [unlink] is inside the [try], after the call. *)
Lemma synthesize_array_inference_raises s text language a kwargs h e :
  is_loaded (eng s) = true ->
  model (eng s) = Some h ->
  language ∈ SUPPORTED_LANGUAGES ->
  (Z.of_nat (String.length text) <= default 500 (kwargs !! "max_length"))%Z ->
  sf_write (temp_path ".wav" (fs (wld s))) a 22050 = None ->
  model_tts h {| a_text := text;
                 a_speaker_wav := Some (temp_path ".wav" (fs (wld s)));
                 a_language := language |} (length (tts_calls (wld s))) = Raise e ->
  (synthesize text language (Some (RefArray a)) kwargs s).1 = Raise e
  /\ temp_path ".wav" (fs (wld s))
     ∈ fs (wld (synthesize text language (Some (RefArray a)) kwargs s).2).
Proof.
  intros Hl Hm Hin Hlen Hw Ht.
  rewrite synthesize_blocks, ensure_loaded_loaded by done. simpl.
  rewrite validate_ok by done.
  pose proof (synthesize_try_array text language a s h Hm Hw) as Hb.
  simpl in Hb. by rewrite Ht in Hb.
Qed.

(** *** The lifecycle seen from synthesize *)

Lemma synthesize_try_constructions text language speaker_wav s :
  constructions (wld (synthesize_try text language speaker_wav s).2)
  = constructions (wld s).
Proof.
  revert s. change (preserves (fun s => constructions (wld s))
                      (synthesize_try text language speaker_wav)).
  assert (forall args, preserves (fun s : state handle => constructions (wld s))
                         (call_tts args)) as Htts.
  { intros args s. unfold call_tts. by destruct (model (eng s)). }
  assert (forall p a r, preserves (fun s : state handle => constructions (wld s))
                          (soundfile_write p a r)) as Hwrite.
  { intros p a r s. unfold soundfile_write. by destruct (sf_write p a r). }
  unfold synthesize_try, resolve_speaker_wav, NamedTemporaryFile, unlink.
  apply preserves_bind.
  - destruct speaker_wav as [[p|p|a|a]|]; auto 6 with frame.
    all: apply preserves_bind; [by intros s|auto with frame].
  - intros path. apply preserves_bind; [by destruct (truthy path)|].
    intros audio. apply preserves_bind; [|auto with frame].
    apply preserves_when, preserves_modify. by intros s.
Qed.

(** The only construction a call can perform is that of the lazy load. *)
Lemma synthesize_constructions text language speaker_wav kwargs s :
  constructions (wld (synthesize text language speaker_wav kwargs s).2)
  = if is_loaded (eng s) then constructions (wld s) else S (constructions (wld s)).
Proof.
  rewrite synthesize_blocks.
  assert (constructions (wld (ensure_loaded s).2)
          = if is_loaded (eng s) then constructions (wld s) else S (constructions (wld s)))
    as Hc.
  { destruct (is_loaded (eng s)) eqn:Hl.
    - by rewrite ensure_loaded_loaded.
    - rewrite ensure_loaded_unloaded by done. apply load_model_world. }
  destruct (ensure_loaded s).1 as [[]|e]; [|done].
  destruct (validate _ _ _ _).1 as [[]|e]; [|done].
  by rewrite synthesize_try_constructions.
Qed.

(** C6. For every engine in the unloaded state whose model construction
    raises [e], [load_model] raises [e] to its caller and leaves the engine
    unloaded: [is_loaded] stays false and no handle is retained.  The
    engine is not stuck: a later [load_model] whose construction succeeds
    loads it, and a later [synthesize] starts a new construction. *)
Theorem load_model_failure_keeps_unloaded s e :
  is_loaded (eng s) = false ->
  model (eng s) = None ->
  next_construction s = Raise e ->
  (load_model s).1 = Raise e
  /\ is_loaded (eng (load_model s).2) = false
  /\ model (eng (load_model s).2) = None
  /\ eng (load_model s).2 = eng s
  /\ (forall h, next_construction (load_model s).2 = Ret h ->
        (load_model (load_model s).2).1 = Ret tt
        /\ is_loaded (eng (load_model (load_model s).2).2) = true
        /\ model (eng (load_model (load_model s).2).2) = Some h)
  /\ forall text language speaker_wav kwargs,
       constructions (wld (synthesize text language speaker_wav kwargs (load_model s).2).2)
       = S (constructions (wld (load_model s).2)).
Proof.
  intros Hl Hm E.
  assert (is_loaded (eng (load_model s).2) = false) as Hl'
    by (by rewrite (load_model_raises _ _ E)).
  split; [by rewrite (load_model_raises _ _ E)|].
  split; [done|].
  split; [by rewrite (load_model_raises _ _ E)|].
  split; [by rewrite (load_model_raises _ _ E)|].
  split.
  - intros h E'. by rewrite (load_model_ok _ _ E').
  - intros text language speaker_wav kwargs.
    by rewrite synthesize_constructions, Hl'.
Qed.

(** C4, as the code has it.  [load_model] has no guard of its own: on an
    engine that is already loaded it performs one more model construction;
    when that construction returns [h] the engine's handle is replaced by
    [h] and [is_loaded] stays true, and when it raises the engine is left
    as it was.  The skip-if-loaded guard is in [synthesize], which on a
    loaded engine performs no construction. *)
Theorem load_model_on_loaded_reconstructs s :
  is_loaded (eng s) = true ->
  constructions (wld (load_model s).2) = S (constructions (wld s))
  /\ (forall h, next_construction s = Ret h ->
        (load_model s).1 = Ret tt
        /\ model (eng (load_model s).2) = Some h
        /\ is_loaded (eng (load_model s).2) = true)
  /\ (forall e, next_construction s = Raise e ->
        (load_model s).1 = Raise e /\ eng (load_model s).2 = eng s)
  /\ forall text language speaker_wav kwargs,
       constructions (wld (synthesize text language speaker_wav kwargs s).2)
       = constructions (wld s).
Proof.
  intros Hl. split; [apply load_model_world|].
  split; [intros h E; by rewrite (load_model_ok _ _ E)|].
  split; [intros e E; by rewrite (load_model_raises _ _ E)|].
  intros text language speaker_wav kwargs.
  by rewrite synthesize_constructions, Hl.
Qed.

End Synthesize.

(** ** Two concurrent calls of load_model *)

Section ConcurrentLoad.

Context {handle sample : Type} `{X : Externals handle sample}.

Implicit Types (t : task handle) (s : state handle) (p : pool handle)
  (sched : list caller).

(** One call run alone, step after step, is [load_model]. *)
Lemma task_steps_are_load_model s :
  let '(t1, s1) := task_step Start s in
  let '(t2, s2) := task_step t1 s1 in
  task_step t2 s2 = (Done (load_model s).1, (load_model s).2).
Proof.
  simpl. unfold load_model, try_except, bind, construct_TTS.
  by destruct (next_construction s) as [h|e].
Qed.

Lemma task_step_constructions t s :
  constructions (wld (task_step t s).2) + jobs_run t
  = constructions (wld s) + jobs_run (task_step t s).1.
Proof.
  destruct t as [| |[h|e]|r]; unfold task_step, construct_TTS, load_resume, bind, modify;
    simpl; lia.
Qed.

Lemma task_step_keeps_loaded t s :
  is_loaded (eng s) = true /\ is_Some (model (eng s)) ->
  is_loaded (eng (task_step t s).2) = true /\ is_Some (model (eng (task_step t s).2)).
Proof.
  destruct t as [| |[h|e]|r]; unfold task_step, construct_TTS, load_resume, bind, modify;
    simpl; eauto.
Qed.

Lemma task_step_success t s :
  succeeded (task_step t s).1 = true ->
  succeeded t = true
  \/ (is_loaded (eng (task_step t s).2) = true
      /\ is_Some (model (eng (task_step t s).2))).
Proof.
  destruct t as [| |[h|e]|r]; unfold task_step, construct_TTS, load_resume, bind, modify;
    simpl; eauto; discriminate.
Qed.

Lemma task_step_stage t s :
  stage (task_step t s).1 = Nat.min 3 (S (stage t)).
Proof.
  by destruct t as [| |[h|e]|r]; unfold task_step, construct_TTS, load_resume, bind, modify.
Qed.

(** Establish, preserve. *)
Lemma pool_inv_init s : pool_inv (constructions (wld s)) (two_calls s).
Proof. split; simpl; [lia|discriminate]. Qed.

Lemma pool_inv_step base c p : pool_inv base p -> pool_inv base (pool_step c p).
Proof.
  intros [Hn Hl]. destruct p as [ta tb s]. simpl in *.
  destruct c; simpl.
  - pose proof (task_step_constructions ta s) as Hc.
    pose proof (task_step_keeps_loaded ta s) as Hk.
    pose proof (task_step_success ta s) as Hs.
    destruct (task_step ta s) as [ta' s']; simpl in *.
    split; simpl; [lia|]. intros [Ha|Hb]%orb_true_iff.
    + destruct (Hs Ha) as [Hold|?]; [|done]. apply Hk, Hl. by rewrite Hold.
    + apply Hk, Hl. by rewrite Hb, orb_true_r.
  - pose proof (task_step_constructions tb s) as Hc.
    pose proof (task_step_keeps_loaded tb s) as Hk.
    pose proof (task_step_success tb s) as Hs.
    destruct (task_step tb s) as [tb' s']; simpl in *.
    split; simpl; [lia|]. intros [Ha|Hb]%orb_true_iff.
    + apply Hk, Hl. by rewrite Ha.
    + destruct (Hs Hb) as [Hold|?]; [|done]. apply Hk, Hl. by rewrite Hold, orb_true_r.
Qed.

Lemma pool_inv_run base sched p : pool_inv base p -> pool_inv base (run sched p).
Proof.
  revert p. induction sched as [|c sched IH]; intros p Hp; [done|].
  simpl. by apply IH, pool_inv_step.
Qed.

(** Each call finishes after three turns of its own, whatever the other does. *)
Lemma run_stage sched p :
  stage (task_a (run sched p)) = Nat.min 3 (stage (task_a p) + turns CallerA sched)
  /\ stage (task_b (run sched p)) = Nat.min 3 (stage (task_b p) + turns CallerB sched).
Proof.
  revert p. induction sched as [|c sched IH]; intros [ta tb s].
  - simpl. destruct ta as [| |?|?], tb as [| |?|?]; simpl; lia.
  - change (run (c :: sched) (Pool ta tb s)) with (run sched (pool_step c (Pool ta tb s))).
    destruct (IH (pool_step c (Pool ta tb s))) as [Ha Hb]. rewrite Ha, Hb.
    clear IH Ha Hb.
    pose proof (task_step_stage ta s) as Hsa.
    pose proof (task_step_stage tb s) as Hsb.
    destruct c; unfold pool_step; cbn [task_a task_b shared].
    + destruct (task_step ta s) as [ta' s'].
      cbn [fst snd task_a task_b shared turns] in *. lia.
    + destruct (task_step tb s) as [tb' s'].
      cbn [fst snd task_a task_b shared turns] in *. lia.
Qed.

Lemma is_done_stage t : is_done t = true <-> stage t = 3.
Proof. destruct t; simpl; split; (done || lia). Qed.

Lemma run_completes sched s :
  3 <= turns CallerA sched -> 3 <= turns CallerB sched ->
  is_done (task_a (run sched (two_calls s))) = true
  /\ is_done (task_b (run sched (two_calls s))) = true.
Proof.
  intros Ha Hb. destruct (run_stage sched (two_calls s)) as [Hsa Hsb].
  rewrite !is_done_stage. cbn [two_calls task_a task_b stage] in *. lia.
Qed.

(** C9, as the code has it.  [load_model] has no single-flight guard.  For
    every unloaded engine and every interleaving of two calls, once each
    call has had its three turns both calls are complete and exactly two
    model constructions have been performed, one per call: the second
    caller starts its own construction instead of waiting for the first.
    At every point of the interleaving, as soon as one call has returned
    normally the engine is loaded and holds a handle. *)
Theorem concurrent_load_model_constructs_twice s sched :
  is_loaded (eng s) = false ->
  3 <= turns CallerA sched ->
  3 <= turns CallerB sched ->
  is_done (task_a (run sched (two_calls s))) = true
  /\ is_done (task_b (run sched (two_calls s))) = true
  /\ constructions (wld (shared (run sched (two_calls s)))) = constructions (wld s) + 2
  /\ forall prefix,
       succeeded (task_a (run prefix (two_calls s)))
       || succeeded (task_b (run prefix (two_calls s))) = true ->
       is_loaded (eng (shared (run prefix (two_calls s)))) = true
       /\ is_Some (model (eng (shared (run prefix (two_calls s))))).
Proof.
  intros _ Ha Hb.
  destruct (run_completes sched s Ha Hb) as [Hda Hdb].
  do 2 (split; [done|]). split.
  - destruct (pool_inv_run _ sched _ (pool_inv_init s)) as [Hn _].
    destruct (task_a (run sched (two_calls s))); try discriminate.
    destruct (task_b (run sched (two_calls s))); try discriminate.
    simpl in Hn. lia.
  - intros prefix. apply (pool_inv_run _ prefix _ (pool_inv_init s)).
Qed.

End ConcurrentLoad.

(** C9 as stated fails: the second caller arrives while the first is
    suspended in its load; both calls complete, and two models have been
    constructed, the engine keeping the second. *)
Lemma concurrent_load_model_is_not_single_flight :
  is_loaded (eng fresh_state) = false
  /\ task_a (run (X := healthy)
       [CallerA; CallerB; CallerA; CallerB; CallerA; CallerB] (two_calls fresh_state))
     = Done (Ret tt)
  /\ task_b (run (X := healthy)
       [CallerA; CallerB; CallerA; CallerB; CallerA; CallerB] (two_calls fresh_state))
     = Done (Ret tt)
  /\ constructions (wld (shared (run (X := healthy)
       [CallerA; CallerB; CallerA; CallerB; CallerA; CallerB] (two_calls fresh_state)))) = 2
  /\ constructions (wld (shared (run (X := healthy)
       [CallerA; CallerB; CallerA; CallerB; CallerA; CallerB] (two_calls fresh_state))))
     <> constructions (wld fresh_state) + 1
  /\ model (eng (shared (run (X := healthy)
       [CallerA; CallerB; CallerA; CallerB; CallerA; CallerB] (two_calls fresh_state))))
     = Some 1.
Proof. repeat split; try reflexivity. discriminate. Qed.

Lemma concurrent_load_model_constructs_twice_witness :
  is_loaded (eng fresh_state) = false
  /\ 3 <= turns CallerA [CallerA; CallerA; CallerB; CallerB; CallerB; CallerA]
  /\ 3 <= turns CallerB [CallerA; CallerA; CallerB; CallerB; CallerB; CallerA]
  /\ constructions (wld (shared (run (X := healthy)
       [CallerA; CallerA; CallerB; CallerB; CallerB; CallerA] (two_calls fresh_state)))) = 2
  /\ is_loaded (eng (shared (run (X := healthy)
       [CallerA; CallerA; CallerB; CallerB; CallerB] (two_calls fresh_state)))) = true.
Proof.
  assert (3 <= turns CallerA [CallerA; CallerA; CallerB; CallerB; CallerB; CallerA]) as Ha
    by (simpl; lia).
  assert (3 <= turns CallerB [CallerA; CallerA; CallerB; CallerB; CallerB; CallerA]) as Hb
    by (simpl; lia).
  pose proof (concurrent_load_model_constructs_twice (X := healthy) fresh_state
                [CallerA; CallerA; CallerB; CallerB; CallerB; CallerA] eq_refl Ha Hb)
    as (_ & _ & Hn & Hloaded).
  split; [reflexivity|]. split; [exact Ha|]. split; [exact Hb|]. split; [exact Hn|].
  exact (proj1 (Hloaded [CallerA; CallerA; CallerB; CallerB; CallerB] eq_refl)).
Defined.

(** ** get_supported_languages *)

Section SupportedLanguages.

Implicit Types (cls r : positive) (h : gmap positive (list string)).

Lemma list_copy_fresh cls h l :
  h !! cls = Some l ->
  exists r,
    list_copy cls h = Some (r, <[r := l]> h) /\ h !! r = None /\ r ≠ cls.
Proof.
  intros Hc. unfold list_copy. rewrite Hc. exists (fresh (dom h)).
  assert (h !! fresh (dom h) = None) as Hf
    by (apply not_elem_of_dom, is_fresh).
  split; [done|]. split; [done|]. intros Heq. rewrite Heq in Hf. congruence.
Qed.

(** C10. Whenever the class attribute holds the sixteen codes,
    [get_supported_languages] returns a list object that did not exist
    before, distinct from the class attribute, holding those sixteen codes.
    Whatever in-place mutation the caller applies to the returned object,
    the class attribute still holds the sixteen codes, and the next call
    again returns a new object holding them. *)
Theorem get_supported_languages_returns_a_copy cls h :
  h !! cls = Some SUPPORTED_LANGUAGES ->
  length SUPPORTED_LANGUAGES = 16
  /\ exists r h',
       get_supported_languages cls h = Some (r, h')
       /\ r ≠ cls
       /\ h !! r = None
       /\ h' !! r = Some SUPPORTED_LANGUAGES
       /\ h' !! cls = Some SUPPORTED_LANGUAGES
       /\ forall f,
            list_mutate r f h' !! cls = Some SUPPORTED_LANGUAGES
            /\ list_mutate r f h' !! r = Some (f SUPPORTED_LANGUAGES)
            /\ exists r2 h2,
                 get_supported_languages cls (list_mutate r f h') = Some (r2, h2)
                 /\ r2 ≠ r /\ r2 ≠ cls
                 /\ h2 !! r2 = Some SUPPORTED_LANGUAGES.
Proof.
  intros Hc. split; [done|].
  destruct (list_copy_fresh cls h _ Hc) as (r & Hcopy & Hnew & Hne).
  exists r, (<[r := SUPPORTED_LANGUAGES]> h).
  split; [done|]. split; [done|]. split; [done|].
  split; [by rewrite lookup_insert_eq|].
  split; [by rewrite lookup_insert_ne|].
  intros f. unfold list_mutate.
  assert (alter f r (<[r := SUPPORTED_LANGUAGES]> h) !! cls = Some SUPPORTED_LANGUAGES)
    as Hc' by (by rewrite lookup_alter_ne, lookup_insert_ne).
  assert (alter f r (<[r := SUPPORTED_LANGUAGES]> h) !! r = Some (f SUPPORTED_LANGUAGES))
    as Hr' by (by rewrite lookup_alter_eq, lookup_insert_eq).
  split; [done|]. split; [done|].
  destruct (list_copy_fresh cls _ _ Hc') as (r2 & Hcopy2 & Hnew2 & Hne2).
  exists r2, (<[r2 := SUPPORTED_LANGUAGES]> (alter f r (<[r := SUPPORTED_LANGUAGES]> h))).
  split; [done|]. split; [intros Heq; rewrite Heq in Hnew2; congruence|].
  split; [done|].
  by rewrite lookup_insert_eq.
Qed.

End SupportedLanguages.

(** The caller clears the list it was given; the class attribute and the
    next answer are unaffected. *)
Lemma get_supported_languages_returns_a_copy_witness :
  ({[ 1%positive := SUPPORTED_LANGUAGES ]} : gmap positive (list string)) !! 1%positive
    = Some SUPPORTED_LANGUAGES
  /\ exists r h',
       get_supported_languages 1 {[ 1%positive := SUPPORTED_LANGUAGES ]} = Some (r, h')
       /\ r ≠ 1%positive
       /\ exists r2 h2,
            get_supported_languages 1 (list_mutate r (fun _ => []) h') = Some (r2, h2)
            /\ h2 !! r2 = Some SUPPORTED_LANGUAGES.
Proof.
  assert (({[ 1%positive := SUPPORTED_LANGUAGES ]} : gmap positive (list string)) !! 1%positive
          = Some SUPPORTED_LANGUAGES) as Hc by (apply lookup_singleton_eq).
  split; [exact Hc|].
  destruct (get_supported_languages_returns_a_copy 1 _ Hc)
    as (_ & r & h' & Hget & Hne & _ & _ & _ & Hmut).
  exists r, h'. split; [exact Hget|]. split; [exact Hne|].
  destruct (Hmut (fun _ => [])) as (_ & _ & r2 & h2 & Hget2 & _ & _ & Hl2).
  exists r2, h2. split; [exact Hget2|exact Hl2].
Defined.

(** ** audio.py *)

Section AudioProps.

Context {sample : Type} `{O : SampleOps sample}.

(** C5: the code raises on an empty buffer.  [np.max] of a zero-size array
    raises [ValueError] before the silence test is reached, whatever the
    sample arithmetic and the target peak. *)
Theorem normalize_audio_empty_raises (target_peak : sample) :
  normalize_audio [] target_peak
  = Raise (ValueError
      "zero-size array to reduction operation maximum which has no identity").
Proof. reflexivity. Qed.

(** A non-empty buffer whose peak compares equal to zero is returned as it is. *)
Lemma normalize_audio_silent (audio : list sample) (target_peak peak : sample) :
  np_max (np_abs audio) = Ret peak ->
  feq_zero peak = true ->
  normalize_audio audio target_peak = Ret audio.
Proof. intros Hp Hz. unfold normalize_audio. by rewrite Hp, Hz. Qed.

(** Otherwise every sample is multiplied by [target_peak / peak]. *)
Lemma normalize_audio_scaled (audio : list sample) (target_peak peak : sample) :
  np_max (np_abs audio) = Ret peak ->
  feq_zero peak = false ->
  normalize_audio audio target_peak
  = Ret (map (fun x => fmul x (fdiv target_peak peak)) audio).
Proof. intros Hp Hz. unfold normalize_audio. by rewrite Hp, Hz. Qed.

(** [trim_silence] returns what the third-party trimmer returns. *)
Lemma trim_silence_forwards trim (audio audio_trimmed : list sample) (top_db : Z) iv :
  trim audio top_db = Ret (audio_trimmed, iv) ->
  trim_silence trim audio top_db = Ret audio_trimmed.
Proof. intros Ht. unfold trim_silence. by rewrite Ht. Qed.

End AudioProps.

(** On a [float64] buffer whose peak is the smallest subnormal, the scale
    factor overflows: the result holds an infinity, and a NaN where the input
    held a zero. *)
Lemma normalize_audio_binary64_overflow :
  normalize_audio (O := binary64) [f64_tiny; PrimFloat.zero] f64_default_peak
  = Ret [PrimFloat.infinity; PrimFloat.nan].
Proof. vm_compute. reflexivity. Qed.

Lemma normalize_audio_binary64_unit :
  normalize_audio (O := binary64) [PrimFloat.zero; PrimFloat.opp PrimFloat.one] f64_default_peak
  = Ret [PrimFloat.zero; PrimFloat.opp f64_default_peak].
Proof. vm_compute. reflexivity. Qed.

(** ** The lifecycle and the validation on concrete engines *)

(** [load_model] fails once on a fresh engine, which stays unloaded; the
    second attempt loads it. *)
Lemma load_model_failure_keeps_unloaded_witness :
  next_construction (X := second_try) fresh_state
    = Raise (Exn "RuntimeError" "out of memory")
  /\ (load_model (X := second_try) fresh_state).1
     = Raise (Exn "RuntimeError" "out of memory")
  /\ is_loaded (eng (load_model (X := second_try) fresh_state).2) = false
  /\ model (eng (load_model (X := second_try) fresh_state).2) = None.
Proof.
  pose proof (load_model_failure_keeps_unloaded (X := second_try) fresh_state
                (Exn "RuntimeError" "out of memory") eq_refl eq_refl eq_refl)
    as (Hr & Hl & Hm & _).
  split; [reflexivity|]. split; [exact Hr|]. split; [exact Hl|exact Hm].
Defined.

(** C4 as stated fails: on a loaded engine holding handle [0], [load_model]
    constructs a second model and replaces the handle. *)
Lemma load_model_on_loaded_is_not_a_noop :
  is_loaded (eng loaded_state) = true
  /\ model (eng loaded_state) = Some 0
  /\ constructions (wld loaded_state) = 1
  /\ (load_model (X := healthy) loaded_state).1 = Ret tt
  /\ model (eng (load_model (X := healthy) loaded_state).2) = Some 1
  /\ constructions (wld (load_model (X := healthy) loaded_state).2) = 2
  /\ ~ (constructions (wld (load_model (X := healthy) loaded_state).2)
          = constructions (wld loaded_state)
        /\ eng (load_model (X := healthy) loaded_state).2 = eng loaded_state).
Proof.
  do 6 (split; [reflexivity|]). intros [Hc _]. discriminate Hc.
Qed.

Lemma load_model_on_loaded_reconstructs_witness :
  is_loaded (eng loaded_state) = true
  /\ constructions (wld (load_model (X := healthy) loaded_state).2) = 2
  /\ model (eng (load_model (X := healthy) loaded_state).2) = Some 1
  /\ constructions
       (wld (synthesize (X := healthy) "hello" "en" None ∅ loaded_state).2) = 1.
Proof.
  pose proof (load_model_on_loaded_reconstructs (X := healthy) loaded_state eq_refl)
    as (Hc & Hok & _ & Hsyn).
  split; [reflexivity|]. split; [exact Hc|].
  split; [exact (proj1 (proj2 (Hok 1 eq_refl)))|].
  exact (Hsyn "hello" "en" None ∅).
Defined.

Lemma xx_not_supported : "xx" ∉ SUPPORTED_LANGUAGES.
Proof. unfold SUPPORTED_LANGUAGES. set_unfold. intros H. repeat destruct H as [H|H]; done. Qed.

Lemma en_supported : "en" ∈ SUPPORTED_LANGUAGES.
Proof. unfold SUPPORTED_LANGUAGES. set_unfold. tauto. Qed.

(** C2 as stated fails: on a fresh engine whose model cannot be constructed,
    a request for language ["xx"] fails with the construction's exception,
    not with the unsupported-language [ValueError]. *)
Lemma synthesize_unsupported_language_load_error :
  ("xx" ∉ SUPPORTED_LANGUAGES)
  /\ (synthesize (X := no_weights) "hello" "xx" None ∅ fresh_state).1
     = Raise (Exn "RuntimeError" "out of memory")
  /\ (synthesize (X := no_weights) "hello" "xx" None ∅ fresh_state).1
     <> Raise (ValueError (unsupported_language_message "xx")).
Proof.
  split; [exact xx_not_supported|]. split; [reflexivity|]. discriminate.
Qed.

Lemma synthesize_rejects_unsupported_language_witness :
  ("xx" ∉ SUPPORTED_LANGUAGES)
  /\ tts_calls (wld (synthesize (X := healthy) "hello" "xx" None ∅ fresh_state).2) = []
  /\ (synthesize (X := healthy) "hello" "xx" None ∅ fresh_state).1
     = Raise (ValueError
         "Language 'xx' not supported. Available: ['en', 'es', 'fr', 'de', 'it', 'pt', 'pl', 'tr', 'ru', 'nl', 'cs', 'ar', 'zh-cn', 'ja', 'hu', 'ko']").
Proof.
  pose proof (synthesize_rejects_unsupported_language (X := healthy)
                fresh_state "hello" "xx" None ∅ xx_not_supported)
    as (Hcalls & Hfail & _).
  split; [exact xx_not_supported|]. split; [exact Hcalls|].
  exact (Hfail (or_intror (ex_intro _ 0 eq_refl))).
Defined.

(** C3 as stated fails: on a fresh engine a text of 501 characters is
    rejected only after the model has been constructed. *)
Lemma synthesize_long_text_loads_first :
  String.length text_501 = 501
  /\ constructions (wld fresh_state) = 0
  /\ (synthesize (X := healthy) text_501 "en" None ∅ fresh_state).1
     = Raise (ValueError "Text too long. Maximum 500 characters allowed.")
  /\ constructions
       (wld (synthesize (X := healthy) text_501 "en" None ∅ fresh_state).2) = 1
  /\ is_loaded
       (eng (synthesize (X := healthy) text_501 "en" None ∅ fresh_state).2) = true
  /\ constructions (wld (synthesize (X := healthy) text_501 "en" None ∅ fresh_state).2)
     <> constructions (wld fresh_state).
Proof. do 5 (split; [vm_compute; reflexivity|]). vm_compute. discriminate. Qed.

Lemma synthesize_rejects_long_text_witness :
  (default 500 ((∅ : gmap string Z) !! "max_length")
   < Z.of_nat (String.length text_501))%Z
  /\ synthesize (X := healthy) text_501 "en" None ∅ loaded_state
     = (Raise (ValueError (text_too_long_message 500)), loaded_state).
Proof.
  assert (default 500 ((∅ : gmap string Z) !! "max_length")
          < Z.of_nat (String.length text_501))%Z as Hlen
    by (vm_compute; reflexivity).
  pose proof (synthesize_rejects_long_text (X := healthy) loaded_state
                text_501 "en" None ∅ en_supported Hlen)
    as (_ & _ & Hloaded & _).
  split; [exact Hlen|]. exact (Hloaded eq_refl).
Defined.

(** The caller's file survives a call that reads it, and a call that
    creates and removes a temporary file. *)
Lemma synthesize_keeps_caller_file_witness :
  "/data/voice.wav" ∈ fs (wld loaded_state)
  /\ "/data/voice.wav"
     ∈ fs (wld (synthesize (X := healthy) "hello" "en"
                  (Some (RefStr "/data/voice.wav")) ∅ loaded_state).2)
  /\ "/data/voice.wav"
     ∈ fs (wld (synthesize (X := broken_inference) "hello" "en"
                  (Some (RefPath "/data/voice.wav")) ∅ loaded_state).2)
  /\ "/data/voice.wav"
     ∈ fs (wld (synthesize (X := healthy) "hello" "en"
                  (Some (RefArray [1; 2; 3]%Z)) ∅ loaded_state).2).
Proof.
  assert ("/data/voice.wav" ∈ fs (wld loaded_state)) as Hin
    by (simpl; apply elem_of_singleton; reflexivity).
  split; [exact Hin|].
  split; [exact (proj1 (synthesize_keeps_caller_file (X := healthy) loaded_state
                   "hello" "en" _ ∅ "/data/voice.wav" (or_introl eq_refl) Hin))|].
  split; [exact (proj1 (synthesize_keeps_caller_file (X := broken_inference) loaded_state
                   "hello" "en" _ ∅ "/data/voice.wav" (or_intror eq_refl) Hin))|].
  apply (proj2 (proj2 (synthesize_keeps_caller_file (X := healthy) loaded_state
                   "hello" "en" _ ∅ "/data/voice.wav" (or_introl eq_refl) Hin))).
  - exact Hin.
  - intros H. discriminate H.
Defined.

(** C1: the code leaves the temporary file behind when inference raises.
    The request passes an in-memory buffer to a loaded engine whose
    [model.tts] raises: the call raises, and the temporary file, which did not
    exist before the call, exists after it.  With a [model.tts] that returns,
    the same request leaves no temporary file. *)
Theorem synthesize_leaks_temp_file_when_inference_raises :
  temp_path (X := broken_inference) ".wav" (fs (wld loaded_state)) = "/tmp/tmpk3x9_q2a.wav"
  /\ ("/tmp/tmpk3x9_q2a.wav" ∉ fs (wld loaded_state))
  /\ (synthesize (X := broken_inference) "hello" "en"
        (Some (RefArray [1; 2; 3]%Z)) ∅ loaded_state).1
     = Raise (Exn "RuntimeError" "inference failed")
  /\ "/tmp/tmpk3x9_q2a.wav"
     ∈ fs (wld (synthesize (X := broken_inference) "hello" "en"
                  (Some (RefArray [1; 2; 3]%Z)) ∅ loaded_state).2)
  /\ (synthesize (X := healthy) "hello" "en"
        (Some (RefArray [1; 2; 3]%Z)) ∅ loaded_state).1
     = Ret [3; -1; 4]%Z
  /\ "/tmp/tmpk3x9_q2a.wav"
     ∉ fs (wld (synthesize (X := healthy) "hello" "en"
                  (Some (RefArray [1; 2; 3]%Z)) ∅ loaded_state).2).
Proof.
  split; [reflexivity|].
  split; [simpl; intros H%elem_of_singleton; discriminate H|].
  assert (Z.of_nat (String.length "hello") <= default 500 ((∅ : gmap string Z) !! "max_length"))%Z
    as Hlen by (vm_compute; discriminate).
  destruct (synthesize_array_inference_raises (X := broken_inference) loaded_state
              "hello" "en" [1; 2; 3]%Z ∅ 0 (Exn "RuntimeError" "inference failed")
              eq_refl eq_refl en_supported Hlen eq_refl eq_refl) as [Hr Hin].
  destruct (synthesize_array_returns (X := healthy) loaded_state
              "hello" "en" [1; 2; 3]%Z ∅ 0 [3; -1; 4]%Z
              eq_refl eq_refl en_supported Hlen eq_refl eq_refl) as [Hr' Hout].
  split; [exact Hr|]. split; [exact Hin|]. split; [exact Hr'|exact Hout].
Qed.

(** * Further properties of the code *)

(** ** Device selection and construction *)


Section EngineFacts.

Context {handle sample : Type} `{X : Externals handle sample}.

Implicit Types (s : state handle) (text language : string)
  (speaker_wav : option (speaker_ref sample)) (kwargs : gmap string Z).

(** *** What the blocks of synthesize leave alone *)

Lemma resolve_speaker_wav_preserves {B} (f : state handle -> B) speaker_wav :
  (forall g s, f (set_fs g s) = f s) ->
  preserves f (resolve_speaker_wav speaker_wav).
Proof.
  intros Hfs. unfold resolve_speaker_wav, NamedTemporaryFile.
  destruct speaker_wav as [[p|p|a|a]|]; auto with frame.
  all: apply preserves_bind; [intros s; apply Hfs|intros name].
  all: apply preserves_bind; [|auto with frame].
  all: intros s; unfold soundfile_write; destruct (sf_write name a 22050); simpl;
    [done|apply Hfs].
Qed.

Lemma synthesize_try_preserves {B} (f : state handle -> B) text language speaker_wav :
  (forall g s, f (set_fs g s) = f s) ->
  (forall args, preserves f (call_tts args)) ->
  preserves f (synthesize_try text language speaker_wav).
Proof.
  intros Hfs Htts. unfold synthesize_try.
  apply preserves_bind; [by apply resolve_speaker_wav_preserves|].
  intros path. apply preserves_bind; [by destruct (truthy path)|].
  intros audio. apply preserves_bind; [|auto with frame].
  apply preserves_when. unfold unlink. by apply preserves_modify.
Qed.

Lemma call_tts_eng args : preserves (fun s : state handle => eng s) (call_tts args).
Proof. intros s. unfold call_tts. by destruct (model (eng s)). Qed.

(** X2. [synthesize] changes the engine only through its lazy load: the
    engine after the call is the engine after the first block.  In
    particular a call on a loaded engine leaves [self.model], [self.is_loaded]
    and the configuration strings exactly as they were, whether it returns
    or raises. *)
Theorem synthesize_engine_frame s text language speaker_wav kwargs :
  eng (synthesize text language speaker_wav kwargs s).2 = eng (ensure_loaded s).2
  /\ (is_loaded (eng s) = true ->
      eng (synthesize text language speaker_wav kwargs s).2 = eng s)
  /\ (is_loaded (eng s) = false ->
      eng (synthesize text language speaker_wav kwargs s).2 = eng (load_model s).2).
Proof.
  assert (eng (synthesize text language speaker_wav kwargs s).2 = eng (ensure_loaded s).2)
    as Heng.
  { rewrite synthesize_blocks.
    destruct (ensure_loaded s).1 as [[]|e]; [|done].
    destruct (validate _ _ _ _).1 as [[]|e]; [|done].
    apply (synthesize_try_preserves (fun s => eng s)); [done|apply call_tts_eng]. }
  split; [done|]. split; intros Hl; rewrite Heng.
  - by rewrite ensure_loaded_loaded.
  - by rewrite ensure_loaded_unloaded.
Qed.

(** *** The lifecycle *)

Lemma unload_model_some s h :
  model (eng s) = Some h ->
  unload_model s =
    (Ret tt,
     {| eng := {| model_name := model_name (eng s); device := device (eng s);
                  model := None; is_loaded := false |};
        wld := wld s |}).
Proof. intros Hm. unfold unload_model, bind, get, modify. simpl. by rewrite Hm. Qed.

Lemma unload_model_none s :
  model (eng s) = None -> unload_model s = (Ret tt, s).
Proof. intros Hm. unfold unload_model, bind, get. simpl. by rewrite Hm. Qed.

(** X3. The engine holds a handle exactly when [is_loaded] is true: this
    holds of a newly constructed engine, and [load_model], [unload_model] and
    [synthesize] each keep it, whether they return or raise. *)
Theorem consistent_is_kept s (config : gmap string string) (hw : hardware) :
  consistent (eng s) ->
  consistent (CoquiXTTSEngine_init (handle := handle) config hw)
  /\ consistent (eng (load_model s).2)
  /\ consistent (eng (unload_model s).2)
  /\ forall text language speaker_wav kwargs,
       consistent (eng (synthesize text language speaker_wav kwargs s).2).
Proof.
  intros Hc.
  assert (consistent (eng (load_model s).2)) as Hload.
  { destruct (next_construction s) as [h|e] eqn:E.
    - rewrite (load_model_ok _ _ E). by split.
    - by rewrite (load_model_raises _ _ E). }
  split; [|split; [done|split]].
  - split; [discriminate|]. by intros [h ?].
  - destruct (model (eng s)) as [h|] eqn:Hm.
    + rewrite (unload_model_some _ h Hm). split; [discriminate|]. by intros [h' ?].
    + by rewrite unload_model_none.
  - intros text language speaker_wav kwargs.
    destruct (synthesize_engine_frame s text language speaker_wav kwargs) as (_ & Hy & Hn).
    destruct (is_loaded (eng s)) eqn:Hl; [by rewrite Hy|by rewrite Hn].
Qed.

(** X4. On an engine that holds a handle exactly when it is loaded,
    [unload_model] returns normally and leaves the engine unloaded with no
    handle; it keeps the configuration strings, the disk and the call
    records; a second [unload_model] changes nothing; and [health_check]
    then reports [loaded: False] without changing the state. *)
Theorem unload_model_unloads s (config : gmap string string) :
  consistent (eng s) ->
  (unload_model s).1 = Ret tt
  /\ is_loaded (eng (unload_model s).2) = false
  /\ model (eng (unload_model s).2) = None
  /\ model_name (eng (unload_model s).2) = model_name (eng s)
  /\ device (eng (unload_model s).2) = device (eng s)
  /\ wld (unload_model s).2 = wld s
  /\ unload_model (unload_model s).2 = (Ret tt, (unload_model s).2)
  /\ health_check config (unload_model s).2
     = (Ret {| h_engine := "CoquiXTTSEngine"; h_loaded := false; h_config := config |},
        (unload_model s).2).
Proof.
  intros [Hc1 Hc2].
  destruct (model (eng s)) as [h|] eqn:Hm.
  - rewrite (unload_model_some _ h Hm). simpl. repeat split.
  - rewrite unload_model_none by done.
    assert (is_loaded (eng s) = false) as Hl.
    { destruct (is_loaded (eng s)); [|done]. by destruct (Hc1 eq_refl). }
    repeat split; try done.
    + by apply unload_model_none.
    + unfold health_check, bind, get, ret. simpl. by rewrite Hl.
Qed.

(** X5. Loading and then unloading an unloaded engine gives back the engine
    record it started from, at the cost of one model construction; a
    [synthesize] call after the unload loads again, with a second
    construction. *)
Theorem load_unload_round_trip s h :
  is_loaded (eng s) = false ->
  model (eng s) = None ->
  next_construction s = Ret h ->
  eng (unload_model (load_model s).2).2 = eng s
  /\ constructions (wld (unload_model (load_model s).2).2) = S (constructions (wld s))
  /\ forall text language speaker_wav kwargs,
       constructions
         (wld (synthesize text language speaker_wav kwargs
                 (unload_model (load_model s).2).2).2)
       = S (S (constructions (wld s))).
Proof.
  intros Hl Hm E. rewrite (load_model_ok _ _ E). cbn [snd].
  erewrite unload_model_some by reflexivity. simpl.
  split; [|split; [done|]].
  - destruct s as [[mn dev m l] w]. simpl in *. by subst.
  - intros text language speaker_wav kwargs. by rewrite synthesize_constructions.
Qed.

(** *** What synthesize passes to the model and hands back *)

(** X6. On a loaded engine and a valid request whose reference audio is
    absent or a path, [synthesize] calls [model.tts] once, with the caller's
    text and language and with the path (no [speaker_wav] argument at all
    when the path is absent or the empty string).  It returns the model's
    samples converted to float32, or raises the very exception the model
    raised; the engine and the disk are as before. *)
Theorem synthesize_passes_model_outcome s text language speaker_wav kwargs h :
  is_loaded (eng s) = true ->
  model (eng s) = Some h ->
  language ∈ SUPPORTED_LANGUAGES ->
  (Z.of_nat (String.length text) <= default 500 (kwargs !! "max_length"))%Z ->
  is_buffer speaker_wav = false ->
  synthesize text language speaker_wav kwargs s =
    (match model_tts h {| a_text := text; a_speaker_wav := caller_path speaker_wav;
                          a_language := language |} (length (tts_calls (wld s))) with
     | Ret audio => Ret (map float32 audio)
     | Raise e => Raise e
     end,
     {| eng := eng s;
        wld := {| fs := fs (wld s); constructions := constructions (wld s);
                  tts_calls := {| a_text := text; a_speaker_wav := caller_path speaker_wav;
                                  a_language := language |} :: tts_calls (wld s) |} |}).
Proof.
  intros Hl Hm Hin Hlen Hb.
  rewrite synthesize_blocks, ensure_loaded_loaded by done. simpl.
  rewrite validate_ok by done.
  assert (is_ndarray speaker_wav = false) as Hnd
    by (by destruct speaker_wav as [[p|p|a|a]|]).
  unfold synthesize_try, bind at 1.
  assert (exists path, resolve_speaker_wav speaker_wav s = (Ret path, s)
                       /\ caller_path speaker_wav = if truthy path then path else None)
    as (path & -> & ->).
  { destruct speaker_wav as [[p|p|a|a]|]; try done.
    - by exists (Some p).
    - by exists (Some p).
    - by exists None. }
  rewrite Hnd, andb_false_r. unfold bind, when, ret, call_tts.
  destruct (truthy path); rewrite Hm; by destruct (model_tts h _ _).
Qed.

(** X7. An empty string passed as [speaker_wav] is treated exactly like no
    reference audio at all: same outcome, same final state, for every
    request and every engine. *)
Theorem synthesize_empty_path_is_default_speaker s text language kwargs :
  synthesize text language (Some (RefStr EmptyString)) kwargs s
  = synthesize text language None kwargs s.
Proof. by rewrite !synthesize_blocks. Qed.

(** *** Reference buffers and the temporary file *)

(** X8. A reference buffer that is not a numpy array (a list of samples,
    say) is written to a temporary file like an array, but the file is never
    removed: after a call that returns the model's samples, the temporary
    file is still on disk. *)
Theorem synthesize_keeps_temp_file_of_non_array s text language a kwargs h audio :
  is_loaded (eng s) = true ->
  model (eng s) = Some h ->
  language ∈ SUPPORTED_LANGUAGES ->
  (Z.of_nat (String.length text) <= default 500 (kwargs !! "max_length"))%Z ->
  sf_write (temp_path ".wav" (fs (wld s))) a 22050 = None ->
  model_tts h {| a_text := text;
                 a_speaker_wav := Some (temp_path ".wav" (fs (wld s)));
                 a_language := language |} (length (tts_calls (wld s))) = Ret audio ->
  (synthesize text language (Some (RefOther a)) kwargs s).1 = Ret (map float32 audio)
  /\ temp_path ".wav" (fs (wld s))
     ∈ fs (wld (synthesize text language (Some (RefOther a)) kwargs s).2).
Proof.
  intros Hl Hm Hin Hlen Hw Ht.
  rewrite synthesize_blocks, ensure_loaded_loaded by done. simpl.
  rewrite validate_ok by done.
  unfold synthesize_try, resolve_speaker_wav, NamedTemporaryFile, soundfile_write,
    bind, ret. simpl. rewrite Hw. simpl.
  rewrite truthy_temp_path.
  unfold call_tts, when. simpl. rewrite Hm, Ht. simpl.
  split; [done|]. set_unfold. tauto.
Qed.

(** X9. When writing the reference buffer to the temporary file fails, the
    call raises the writer's exception, [model.tts] is not invoked, and the
    temporary file just created stays on disk. *)
Theorem synthesize_write_failure s text language speaker_wav a kwargs e :
  speaker_wav = Some (RefArray a) \/ speaker_wav = Some (RefOther a) ->
  is_loaded (eng s) = true ->
  language ∈ SUPPORTED_LANGUAGES ->
  (Z.of_nat (String.length text) <= default 500 (kwargs !! "max_length"))%Z ->
  sf_write (temp_path ".wav" (fs (wld s))) a 22050 = Some e ->
  (synthesize text language speaker_wav kwargs s).1 = Raise e
  /\ tts_calls (wld (synthesize text language speaker_wav kwargs s).2) = tts_calls (wld s)
  /\ temp_path ".wav" (fs (wld s))
     ∈ fs (wld (synthesize text language speaker_wav kwargs s).2).
Proof.
  intros Hk Hl Hin Hlen Hw.
  rewrite synthesize_blocks, ensure_loaded_loaded by done. simpl.
  rewrite validate_ok by done.
  destruct Hk as [-> | ->].
  all: unfold synthesize_try, resolve_speaker_wav, NamedTemporaryFile, soundfile_write,
         bind, ret; simpl; rewrite Hw; simpl.
  all: split; [done|]; split; [done|]; set_unfold; tauto.
Qed.

(** *** Validation *)

(** X10. The two checks accept a request exactly when the language is one
    of the supported codes and the text has at most [max_length] characters
    (500 when the option is absent): a text of exactly [max_length]
    characters passes, one character more does not. *)
Theorem validate_accepts_iff text language kwargs s :
  (validate text language kwargs s).1 = Ret tt
  <-> language ∈ SUPPORTED_LANGUAGES
      /\ (Z.of_nat (String.length text) <= default 500 (kwargs !! "max_length"))%Z.
Proof.
  split.
  - intros Hok.
    destruct (decide (language ∈ SUPPORTED_LANGUAGES)) as [Hin|Hn];
      [|by rewrite validate_unsupported in Hok].
    split; [done|].
    destruct (decide (default 500 (kwargs !! "max_length")
                      < Z.of_nat (String.length text))%Z) as [Hlong|?]; [|lia].
    by rewrite validate_too_long in Hok.
  - intros [Hin Hlen]. by apply validate_ok.
Qed.

(** X11. Of the keyword options only [max_length] matters: two calls that
    agree on it (both absent, or the same value) behave identically, whatever
    other options they carry. *)
Theorem synthesize_ignores_other_options s text language speaker_wav kwargs kwargs' :
  kwargs !! "max_length" = kwargs' !! "max_length" ->
  synthesize text language speaker_wav kwargs s
  = synthesize text language speaker_wav kwargs' s.
Proof. intros Hk. unfold synthesize, validate. by rewrite Hk. Qed.

(** *** Calls to the model *)

Lemma call_tts_calls args s :
  tts_calls (wld (call_tts args s).2) = tts_calls (wld s)
  \/ tts_calls (wld (call_tts args s).2) = args :: tts_calls (wld s).
Proof. unfold call_tts. destruct (model (eng s)); simpl; auto. Qed.

Lemma bind_unfold {S A B} (c : M S A) (k : A -> M S B) (s : S) :
  bind c k s = match c s with
               | (Ret a, s') => k a s'
               | (Raise e, s') => (Raise e, s')
               end.
Proof. reflexivity. Qed.

Lemma synthesize_try_calls s text language speaker_wav :
  tts_calls (wld (synthesize_try text language speaker_wav s).2) = tts_calls (wld s)
  \/ exists path,
       tts_calls (wld (synthesize_try text language speaker_wav s).2)
       = {| a_text := text; a_speaker_wav := path; a_language := language |}
         :: tts_calls (wld s).
Proof.
  unfold synthesize_try. rewrite bind_unfold.
  pose proof (resolve_speaker_wav_preserves (fun s => tts_calls (wld s)) speaker_wav
                (fun _ _ => eq_refl) s) as Hres.
  destruct (resolve_speaker_wav speaker_wav s) as [[path|e] s1]; simpl in Hres;
    [|by left].
  rewrite <-Hres. rewrite bind_unfold.
  assert (exists args, a_text args = text /\ a_language args = language
            /\ (if truthy path
                then call_tts {| a_text := text; a_speaker_wav := path;
                                 a_language := language |}
                else call_tts {| a_text := text; a_speaker_wav := None;
                                 a_language := language |}) s1 = call_tts args s1)
    as (args & Ht & Hlang & ->).
  { destruct (truthy path).
    - by exists {| a_text := text; a_speaker_wav := path; a_language := language |}.
    - by exists {| a_text := text; a_speaker_wav := None; a_language := language |}. }
  pose proof (call_tts_calls args s1) as Hc.
  destruct (call_tts args s1) as [[audio|e] s2]; simpl in Hc.
  - unfold bind, when, unlink, modify, ret.
    destruct (truthy path && is_ndarray speaker_wav); simpl.
    all: destruct Hc as [Hc|Hc]; [by left|right].
    all: exists (a_speaker_wav args); rewrite Hc; by destruct args; simpl in *; subst.
  - simpl. destruct Hc as [Hc|Hc]; [by left|right].
    exists (a_speaker_wav args). rewrite Hc. by destruct args; simpl in *; subst.
Qed.

(** X12. A call to [synthesize] invokes [model.tts] at most once, and then
    with the caller's text and language unchanged; it never removes or
    rewrites the record of earlier invocations. *)
Theorem synthesize_calls_model_at_most_once s text language speaker_wav kwargs :
  tts_calls (wld (synthesize text language speaker_wav kwargs s).2) = tts_calls (wld s)
  \/ exists path,
       tts_calls (wld (synthesize text language speaker_wav kwargs s).2)
       = {| a_text := text; a_speaker_wav := path; a_language := language |}
         :: tts_calls (wld s).
Proof.
  rewrite synthesize_blocks.
  destruct (ensure_loaded_world s) as [_ Hcalls].
  destruct (ensure_loaded s).1 as [[]|e]; [|by left].
  destruct (validate _ _ _ _).1 as [[]|e]; [|by left].
  rewrite <-Hcalls. apply synthesize_try_calls.
Qed.

(** *** The lazy load and the disk *)

(** X19. When the lazy load of an unloaded engine fails, [synthesize] raises
    the construction's exception for every request, valid or not: nothing is
    validated, no temporary file is written, [model.tts] is not invoked, and
    the engine is still unloaded. *)
Theorem synthesize_load_failure s text language speaker_wav kwargs e :
  is_loaded (eng s) = false ->
  next_construction s = Raise e ->
  (synthesize text language speaker_wav kwargs s).1 = Raise e
  /\ eng (synthesize text language speaker_wav kwargs s).2 = eng s
  /\ fs (wld (synthesize text language speaker_wav kwargs s).2) = fs (wld s)
  /\ tts_calls (wld (synthesize text language speaker_wav kwargs s).2) = tts_calls (wld s)
  /\ constructions (wld (synthesize text language speaker_wav kwargs s).2)
     = S (constructions (wld s)).
Proof.
  intros Hl E. rewrite synthesize_blocks, ensure_loaded_unloaded by done.
  by rewrite (load_model_raises _ _ E).
Qed.

(** X20. A valid request with a numpy reference buffer on a loaded engine,
    when writing and inference succeed and the temporary name is new, hands
    the model the temporary path and leaves the disk exactly as it was before
    the call. *)
Theorem synthesize_array_restores_disk s text language a kwargs h audio :
  is_loaded (eng s) = true ->
  model (eng s) = Some h ->
  language ∈ SUPPORTED_LANGUAGES ->
  (Z.of_nat (String.length text) <= default 500 (kwargs !! "max_length"))%Z ->
  temp_path ".wav" (fs (wld s)) ∉ fs (wld s) ->
  sf_write (temp_path ".wav" (fs (wld s))) a 22050 = None ->
  model_tts h {| a_text := text;
                 a_speaker_wav := Some (temp_path ".wav" (fs (wld s)));
                 a_language := language |} (length (tts_calls (wld s))) = Ret audio ->
  (synthesize text language (Some (RefArray a)) kwargs s).1 = Ret (map float32 audio)
  /\ fs (wld (synthesize text language (Some (RefArray a)) kwargs s).2) = fs (wld s)
  /\ tts_calls (wld (synthesize text language (Some (RefArray a)) kwargs s).2)
     = {| a_text := text; a_speaker_wav := Some (temp_path ".wav" (fs (wld s)));
          a_language := language |} :: tts_calls (wld s).
Proof.
  intros Hl Hm Hin Hlen Hfresh Hw Ht.
  rewrite synthesize_blocks, ensure_loaded_loaded by done. simpl.
  rewrite validate_ok by done.
  unfold synthesize_try, resolve_speaker_wav, NamedTemporaryFile, soundfile_write,
    bind, ret. simpl. rewrite Hw. simpl.
  rewrite truthy_temp_path.
  unfold call_tts, when, unlink, modify. simpl. rewrite Hm, Ht. simpl.
  split; [done|]. split; [|done].
  apply set_eq. intros x. set_unfold.
  destruct (decide (x = temp_path ".wav" (fs (wld s)))) as [-> |]; tauto.
Qed.

End EngineFacts.

(** ** audio.py: normalize_audio *)

Section AudioFacts.

Context {sample : Type} `{O : SampleOps sample}.

(** X13. [normalize_audio] raises only on the empty buffer.  On every other
    buffer it returns a buffer of the same length, which is either the input
    itself or the input with every sample multiplied by one common factor. *)
Theorem normalize_audio_shape (audio : list sample) (target_peak : sample) :
  (forall e, normalize_audio audio target_peak = Raise e -> audio = [])
  /\ (audio <> [] ->
      exists out,
        normalize_audio audio target_peak = Ret out
        /\ length out = length audio
        /\ (out = audio \/ exists k, out = map (fun x => fmul x k) audio)).
Proof.
  destruct audio as [|x rest].
  - split; [done|]. by intros [].
  - unfold normalize_audio. simpl.
    destruct (feq_zero _); split; try discriminate; intros _.
    + exists (x :: rest). eauto.
    + eexists. split; [done|]. split; [simpl; by rewrite length_map|]. right. by eexists.
Qed.

End AudioFacts.

Lemma f64_maximum_of_zeros (rest : list PrimFloat.float) :
  Forall (fun x => x = PrimFloat.zero \/ x = PrimFloat.neg_zero) rest ->
  fold_left f64_maximum (map PrimFloat.abs rest) PrimFloat.zero = PrimFloat.zero.
Proof.
  induction 1 as [|x rest [-> | ->] _ IH]; [done|exact IH|exact IH].
Qed.

(** X14. On [float64] samples, a non-empty buffer that holds nothing but
    zeros (of either sign) is returned exactly as it is, whatever the target
    peak: no division takes place. *)
Theorem normalize_audio_binary64_silent (audio : list PrimFloat.float)
    (target_peak : PrimFloat.float) :
  audio <> [] ->
  Forall (fun x => x = PrimFloat.zero \/ x = PrimFloat.neg_zero) audio ->
  normalize_audio (O := binary64) audio target_peak = Ret audio.
Proof.
  intros Hne Hz. destruct Hz as [|x rest Hx Hrest]; [done|].
  apply (normalize_audio_silent (O := binary64) _ _ PrimFloat.zero); [|done].
  unfold np_max, np_abs. simpl. f_equal.
  destruct Hx as [-> | ->]; by apply f64_maximum_of_zeros.
Qed.

Lemma normalize_audio_binary64_silent_witness :
  normalize_audio (O := binary64)
    [PrimFloat.zero; PrimFloat.neg_zero; PrimFloat.zero] f64_default_peak
  = Ret [PrimFloat.zero; PrimFloat.neg_zero; PrimFloat.zero].
Proof.
  apply normalize_audio_binary64_silent; [discriminate|].
  constructor; [left; reflexivity|].
  constructor; [right; reflexivity|].
  constructor; [left; reflexivity|].
  constructor.
Defined.

(** ** config.py: load_config *)

Section ConfigFacts.

Context {value app_config : Type} `{C : ConfigExternals value app_config}.

(** X15. A path that does not exist is no error: [load_config] opens no
    file and returns what [load_config(None)] returns, the configuration
    built from no keyword arguments.  The empty string does the same. *)
Theorem load_config_missing_file_is_default (w : disk_world) (p : string) :
  disk w !! p = None ->
  load_config (Some p) w = load_config None w
  /\ load_config (Some EmptyString) w = load_config None w
  /\ load_config None w = (AppConfig_new [], w).
Proof.
  intros Hp. unfold load_config, path_exists, lift, bind, get, ret.
  split; [|done].
  destruct p as [|c p]; [done|].
  change (truthy (Some (String c p))) with true. unfold default, id. simpl.
  rewrite Hp. by rewrite bool_decide_eq_false_2 by (by intros [? ?]).
Qed.


End ConfigFacts.

(** ** Two concurrent calls of synthesize *)

Section SynthesizeRace.

Context {handle sample : Type} `{X : Externals handle sample}.

Implicit Types (q qa qb : request sample) (t : stask handle sample)
  (s : state handle) (p : spool handle sample) (sched : list caller).

Lemma synthesize_try_steps q s :
  synthesize_try (r_text q) (r_language q) (r_speaker_wav q) s =
    match resolve_speaker_wav (r_speaker_wav q) s with
    | (Raise e, s1) => (Raise e, s1)
    | (Ret path, s1) =>
        match infer_job q path s1 with
        | (Raise e, s2) => (Raise e, s2)
        | (Ret audio, s2) => finish q path audio s2
        end
    end.
Proof. reflexivity. Qed.

Lemma run_alone_S q n t s :
  run_alone q (S n) t s
  = run_alone q n (stask_step q t s).1 (stask_step q t s).2.
Proof. simpl. by destruct (stask_step q t s). Qed.

Lemma run_alone_done q n r s : run_alone q n (SDone r) s = (SDone r, s).
Proof. induction n as [|n IH]; [done|]. by rewrite run_alone_S. Qed.

Lemma after_load_alone q n s :
  run_alone q (S (S n)) (after_load q s).1 (after_load q s).2 =
    match (validate (r_text q) (r_language q) (r_kwargs q) s).1 with
    | Raise e => (SDone (Raise e), s)
    | Ret _ =>
        (SDone (synthesize_try (r_text q) (r_language q) (r_speaker_wav q) s).1,
         (synthesize_try (r_text q) (r_language q) (r_speaker_wav q) s).2)
    end.
Proof.
  rewrite synthesize_try_steps. unfold after_load.
  pose proof (validate_state (r_text q) (r_language q) (r_kwargs q) s) as Hv.
  destruct (validate _ _ _ s) as [[[]|e] s0]; simpl in Hv; subst s0;
    [|apply run_alone_done].
  destruct (resolve_speaker_wav _ s) as [[path|e] s1]; [|apply run_alone_done].
  cbn [fst snd]. rewrite run_alone_S. cbn [stask_step].
  destruct (infer_job q path s1) as [[audio|e] s2]; cbn [fst snd].
  - rewrite run_alone_S. cbn [stask_step].
    destruct (finish q path audio s2) as [r s3]. apply run_alone_done.
  - rewrite run_alone_S. cbn [stask_step fst snd]. apply run_alone_done.
Qed.

(** A call run alone, step after step, is [synthesize]. *)
Lemma run_alone_is_synthesize q s :
  run_alone q 5 SStart s =
    (SDone (synthesize (r_text q) (r_language q) (r_speaker_wav q) (r_kwargs q) s).1,
     (synthesize (r_text q) (r_language q) (r_speaker_wav q) (r_kwargs q) s).2).
Proof.
  rewrite synthesize_blocks, run_alone_S. cbn [stask_step].
  destruct (is_loaded (eng s)) eqn:Hl.
  - rewrite ensure_loaded_loaded, after_load_alone by done. cbn [fst snd].
    by destruct (validate _ _ _ s).1.
  - rewrite ensure_loaded_unloaded by done. cbn [fst snd].
    rewrite run_alone_S. cbn [stask_step]. unfold construct_TTS.
    destruct (next_construction s) as [h|e] eqn:E; cbn [fst snd].
    + rewrite (load_model_ok _ _ E). cbn [fst snd].
      rewrite run_alone_S. cbn [stask_step]. unfold load_resume, bind, modify.
      cbn [fst snd]. unfold set_is_loaded, set_model. cbn [eng wld model_name device model].
      rewrite after_load_alone.
      by destruct (validate _ _ _ _).1.
    + rewrite (load_model_raises _ _ E). cbn [fst snd].
      rewrite run_alone_S. cbn [stask_step fst snd]. apply run_alone_done.
Qed.

(** What one step of a call does to the engine and the construction count. *)

Lemma after_load_facts q s :
  past_load (after_load q s).1 = true
  /\ constructions (wld (after_load q s).2) = constructions (wld s)
  /\ eng (after_load q s).2 = eng s.
Proof.
  unfold after_load.
  pose proof (validate_state (r_text q) (r_language q) (r_kwargs q) s) as Hv.
  destruct (validate _ _ _ s) as [[[]|e] s0]; simpl in Hv; subst s0; [|done].
  pose proof (resolve_speaker_wav_preserves (fun s => constructions (wld s))
                (r_speaker_wav q) (fun _ _ => eq_refl) s) as Hc.
  pose proof (resolve_speaker_wav_preserves (fun s => eng s)
                (r_speaker_wav q) (fun _ _ => eq_refl) s) as He.
  by destruct (resolve_speaker_wav _ s) as [[path|e] s1].
Qed.

Lemma infer_job_facts q path s :
  constructions (wld (infer_job q path s).2) = constructions (wld s)
  /\ eng (infer_job q path s).2 = eng s.
Proof.
  unfold infer_job, call_tts.
  by destruct (truthy path), (model (eng s)).
Qed.

Lemma finish_facts q path audio s :
  constructions (wld (finish q path audio s).2) = constructions (wld s)
  /\ eng (finish q path audio s).2 = eng s.
Proof.
  unfold finish, bind, when, unlink, modify, ret.
  by destruct (truthy path && is_ndarray (r_speaker_wav q)).
Qed.

(** A call that is past its load neither constructs nor touches the engine. *)
Lemma stask_step_past_load q t s :
  past_load t = true ->
  past_load (stask_step q t s).1 = true
  /\ constructions (wld (stask_step q t s).2) = constructions (wld s)
  /\ eng (stask_step q t s).2 = eng s.
Proof.
  destruct t as [| |r|path|path [audio|e]|r]; try discriminate; intros _;
    cbn [stask_step].
  - destruct (infer_job_facts q path s) as [? ?].
    by destruct (infer_job q path s).
  - destruct (finish_facts q path audio s) as [? ?].
    by destruct (finish q path audio s).
  - done.
  - done.
Qed.






Lemma serial_inv_run qa qb total sched p :
  serial_inv total p -> serial_inv total (srun qa qb sched p).
Proof.
  revert p. induction sched as [|c sched IH]; intros p Hp; [done|].
  change (srun qa qb (c :: sched) p) with (srun qa qb sched (spool_step qa qb c p)).
  apply IH. destruct p as [ta tb s]. destruct Hp as (Hl & Ha & Hb & Hn). simpl in *.
  destruct c; unfold spool_step; cbn [stask_a stask_b sshared].
  - destruct (stask_step_past_load qa ta s Ha) as (Hp & Hc & He).
    destruct (stask_step qa ta s) as [ta' s']. unfold serial_inv. simpl in *.
    rewrite He, Hc. done.
  - assert (past_load (stask_step qb tb s).1 = true
            /\ constructions (wld (stask_step qb tb s).2) = constructions (wld s)
            /\ eng (stask_step qb tb s).2 = eng s) as (Hp & Hc & He).
    { destruct Hb as [-> | Hb]; [|by apply stask_step_past_load].
      cbn [stask_step]. rewrite Hl. apply after_load_facts. }
    destruct (stask_step qb tb s) as [tb' s']. unfold serial_inv. simpl in *.
    rewrite He, Hc. auto.
Qed.


(** X18. When the first [synthesize] call has finished its load before the
    second call starts, and the construction succeeded, the second call
    finds the engine loaded and constructs nothing: however the two calls
    interleave from then on, exactly one construction has been performed. *)
Theorem serial_synthesize_loads_once s qa qb sched h :
  is_loaded (eng s) = false ->
  next_construction s = Ret h ->
  constructions
    (wld (sshared (srun qa qb (CallerA :: CallerA :: CallerA :: sched) (two_requests s))))
  = constructions (wld s) + 1
  /\ is_loaded
       (eng (sshared (srun qa qb (CallerA :: CallerA :: CallerA :: sched) (two_requests s))))
     = true.
Proof.
  intros Hl E.
  set (s1 := set_is_loaded true (set_model (Some h) (construct_TTS s).2)).
  assert (srun qa qb (CallerA :: CallerA :: CallerA :: sched) (two_requests s)
          = srun qa qb sched (SPool (after_load qa s1).1 SStart (after_load qa s1).2)) as ->.
  { change (srun qa qb (CallerA :: CallerA :: CallerA :: sched) (two_requests s)) with
      (srun qa qb sched
         (spool_step qa qb CallerA
            (spool_step qa qb CallerA (spool_step qa qb CallerA (two_requests s))))).
    f_equal.
    assert (spool_step qa qb CallerA (two_requests s) = SPool SLoading SStart s) as ->.
    { unfold spool_step, two_requests. cbn [stask_a stask_b sshared stask_step].
      by rewrite Hl. }
    assert (spool_step qa qb CallerA (SPool SLoading SStart s)
            = SPool (SLoaded (Ret h)) SStart (construct_TTS s).2) as ->.
    { unfold spool_step. cbn [stask_a stask_b sshared stask_step].
      unfold construct_TTS. by rewrite E. }
    unfold spool_step. cbn [stask_a stask_b sshared stask_step].
    unfold load_resume, bind, modify. cbn [fst snd]. fold s1.
    by destruct (after_load qa s1). }
  destruct (after_load_facts qa s1) as (Hp & Hc & He).
  assert (serial_inv (constructions (wld s) + 1)
            (SPool (after_load qa s1).1 SStart (after_load qa s1).2)) as Hinv.
  { unfold serial_inv. cbn [stask_a stask_b sshared]. rewrite He, Hc.
    subst s1. simpl. split; [done|]. split; [done|]. split; [by left|lia]. }
  by destruct (serial_inv_run qa qb _ sched _ Hinv) as (? & _ & _ & ?).
Qed.

End SynthesizeRace.

(** ** The further properties on concrete engines *)


Lemma fresh_state_consistent : consistent (eng fresh_state).
Proof. split; [discriminate|]. intros [h Hh]. discriminate Hh. Defined.

Lemma loaded_state_consistent : consistent (eng loaded_state).
Proof. split; [intros _; exists 0; reflexivity|reflexivity]. Defined.

Lemma hello_fits : (Z.of_nat (String.length "hello")
                    <= default 500 ((∅ : gmap string Z) !! "max_length"))%Z.
Proof. vm_compute. discriminate. Defined.

Lemma synthesize_engine_frame_witness :
  is_loaded (eng loaded_state) = true
  /\ eng (synthesize (X := broken_inference) "hello" "en"
            (Some (RefArray [1; 2; 3]%Z)) ∅ loaded_state).2 = eng loaded_state.
Proof.
  split; [reflexivity|].
  exact (proj1 (proj2 (synthesize_engine_frame (X := broken_inference) loaded_state
                         "hello" "en" (Some (RefArray [1; 2; 3]%Z)) ∅)) eq_refl).
Defined.

Lemma consistent_is_kept_witness :
  consistent (eng fresh_state)
  /\ consistent (eng (load_model (X := second_try) fresh_state).2)
  /\ consistent (eng (synthesize (X := healthy) "hello" "xx" None ∅ fresh_state).2).
Proof.
  destruct (consistent_is_kept (X := second_try) fresh_state ∅ both_accelerators
              fresh_state_consistent) as (_ & Hload & _ & _).
  destruct (consistent_is_kept (X := healthy) fresh_state ∅ both_accelerators
              fresh_state_consistent) as (_ & _ & _ & Hsyn).
  split; [exact fresh_state_consistent|]. split; [exact Hload|].
  exact (Hsyn "hello" "xx" None ∅).
Defined.

Lemma unload_model_unloads_witness :
  consistent (eng loaded_state)
  /\ is_loaded (eng (unload_model loaded_state).2) = false
  /\ model (eng (unload_model loaded_state).2) = None
  /\ (health_check ∅ (unload_model loaded_state).2).1
     = Ret {| h_engine := "CoquiXTTSEngine"; h_loaded := false; h_config := ∅ |}.
Proof.
  destruct (unload_model_unloads loaded_state ∅ loaded_state_consistent)
    as (_ & Hl & Hm & _ & _ & _ & _ & Hh).
  split; [exact loaded_state_consistent|]. split; [exact Hl|]. split; [exact Hm|].
  rewrite Hh. reflexivity.
Defined.

Lemma load_unload_round_trip_witness :
  next_construction (X := healthy) fresh_state = Ret 0
  /\ eng (unload_model (load_model (X := healthy) fresh_state).2).2 = eng fresh_state
  /\ constructions
       (wld (synthesize (X := healthy) "hello" "en" None ∅
               (unload_model (load_model (X := healthy) fresh_state).2).2).2) = 2.
Proof.
  destruct (load_unload_round_trip (X := healthy) fresh_state 0 eq_refl eq_refl eq_refl)
    as (He & _ & Hs).
  split; [reflexivity|]. split; [exact He|]. exact (Hs "hello" "en" None ∅).
Defined.

Lemma synthesize_passes_model_outcome_witness :
  synthesize (X := healthy) "hello" "en" (Some (RefStr "/data/voice.wav")) ∅ loaded_state
  = (Ret [3; -1; 4]%Z,
     {| eng := eng loaded_state;
        wld := {| fs := fs (wld loaded_state); constructions := 1;
                  tts_calls := [ {| a_text := "hello";
                                    a_speaker_wav := Some "/data/voice.wav";
                                    a_language := "en" |} ] |} |}).
Proof.
  exact (synthesize_passes_model_outcome (X := healthy) loaded_state "hello" "en"
           (Some (RefStr "/data/voice.wav")) ∅ 0 eq_refl eq_refl en_supported hello_fits
           eq_refl).
Defined.

Lemma synthesize_keeps_temp_file_of_non_array_witness :
  (synthesize (X := healthy) "hello" "en" (Some (RefOther [1; 2; 3]%Z)) ∅ loaded_state).1
  = Ret [3; -1; 4]%Z
  /\ "/tmp/tmpk3x9_q2a.wav"
     ∈ fs (wld (synthesize (X := healthy) "hello" "en"
                  (Some (RefOther [1; 2; 3]%Z)) ∅ loaded_state).2).
Proof.
  exact (synthesize_keeps_temp_file_of_non_array (X := healthy) loaded_state "hello" "en"
           [1; 2; 3]%Z ∅ 0 [3; -1; 4]%Z eq_refl eq_refl en_supported hello_fits
           eq_refl eq_refl).
Defined.

Lemma synthesize_write_failure_witness :
  (synthesize (X := disk_full) "hello" "en" (Some (RefArray [1; 2; 3]%Z)) ∅ loaded_state).1
  = Raise (Exn "OSError" "No space left on device")
  /\ tts_calls (wld (synthesize (X := disk_full) "hello" "en"
                       (Some (RefArray [1; 2; 3]%Z)) ∅ loaded_state).2) = []
  /\ "/tmp/tmpk3x9_q2a.wav"
     ∈ fs (wld (synthesize (X := disk_full) "hello" "en"
                  (Some (RefArray [1; 2; 3]%Z)) ∅ loaded_state).2).
Proof.
  exact (synthesize_write_failure (X := disk_full) loaded_state "hello" "en"
           (Some (RefArray [1; 2; 3]%Z)) [1; 2; 3]%Z ∅
           (Exn "OSError" "No space left on device")
           (or_introl eq_refl) eq_refl en_supported hello_fits eq_refl).
Defined.

Lemma synthesize_ignores_other_options_witness :
  ({[ "speed" := 2%Z ]} : gmap string Z) !! "max_length"
    = (∅ : gmap string Z) !! "max_length"
  /\ synthesize (X := healthy) "hello" "en" None {[ "speed" := 2%Z ]} fresh_state
     = synthesize (X := healthy) "hello" "en" None ∅ fresh_state.
Proof.
  assert (({[ "speed" := 2%Z ]} : gmap string Z) !! "max_length"
          = (∅ : gmap string Z) !! "max_length") as Hk by (vm_compute; reflexivity).
  split; [exact Hk|].
  exact (synthesize_ignores_other_options (X := healthy) fresh_state "hello" "en" None
           _ _ Hk).
Defined.

Lemma normalize_audio_shape_witness :
  exists out,
    normalize_audio (O := binary64) [PrimFloat.one; PrimFloat.zero] f64_default_peak = Ret out
    /\ length out = 2.
Proof.
  destruct (proj2 (normalize_audio_shape (O := binary64)
                     [PrimFloat.one; PrimFloat.zero] f64_default_peak))
    as (out & Hout & Hlen & _); [discriminate|].
  exists out. split; [exact Hout|exact Hlen].
Defined.

Lemma load_config_missing_file_is_default_witness :
  disk demo_disk !! "/etc/typo.yaml" = None
  /\ load_config (C := scripted_config) (Some "/etc/typo.yaml") demo_disk
     = load_config (C := scripted_config) None demo_disk
  /\ load_config (C := scripted_config) None demo_disk = (Ret [], demo_disk).
Proof.
  assert (disk demo_disk !! "/etc/typo.yaml" = None) as Hp by (vm_compute; reflexivity).
  destruct (load_config_missing_file_is_default (C := scripted_config) demo_disk
              "/etc/typo.yaml" Hp) as (Hsame & _ & Hdef).
  split; [exact Hp|]. split; [exact Hsame|exact Hdef].
Defined.



Lemma serial_synthesize_loads_once_witness :
  next_construction (X := healthy) fresh_state = Ret 0
  /\ constructions
       (wld (sshared (srun (X := healthy) hello_request clone_request
          (CallerA :: CallerA :: CallerA
           :: [CallerB; CallerA; CallerB; CallerB; CallerA; CallerB])
          (two_requests fresh_state)))) = 1.
Proof.
  destruct (serial_synthesize_loads_once (X := healthy) fresh_state
              hello_request clone_request
              [CallerB; CallerA; CallerB; CallerB; CallerA; CallerB] 0 eq_refl eq_refl)
    as [Hn _].
  split; [reflexivity|exact Hn].
Defined.

Lemma synthesize_load_failure_witness :
  next_construction (X := no_weights) fresh_state
    = Raise (Exn "RuntimeError" "out of memory")
  /\ (synthesize (X := no_weights) "hello" "en" (Some (RefArray [1; 2; 3]%Z)) ∅
        fresh_state).1 = Raise (Exn "RuntimeError" "out of memory")
  /\ fs (wld (synthesize (X := no_weights) "hello" "en" (Some (RefArray [1; 2; 3]%Z)) ∅
                fresh_state).2) = ∅.
Proof.
  destruct (synthesize_load_failure (X := no_weights) fresh_state "hello" "en"
              (Some (RefArray [1; 2; 3]%Z)) ∅ (Exn "RuntimeError" "out of memory")
              eq_refl eq_refl) as (Hr & _ & Hfs & _).
  split; [reflexivity|]. split; [exact Hr|exact Hfs].
Defined.

Lemma temp_name_is_new : "/tmp/tmpk3x9_q2a.wav" ∉ fs (wld loaded_state).
Proof. simpl. intros H%elem_of_singleton. discriminate H. Defined.

Lemma synthesize_array_restores_disk_witness :
  (synthesize (X := healthy) "hello" "en" (Some (RefArray [1; 2; 3]%Z)) ∅ loaded_state).1
  = Ret [3; -1; 4]%Z
  /\ fs (wld (synthesize (X := healthy) "hello" "en" (Some (RefArray [1; 2; 3]%Z)) ∅
                loaded_state).2) = {[ "/data/voice.wav" ]}.
Proof.
  destruct (synthesize_array_restores_disk (X := healthy) loaded_state "hello" "en"
              [1; 2; 3]%Z ∅ 0 [3; -1; 4]%Z eq_refl eq_refl en_supported hello_fits
              temp_name_is_new eq_refl eq_refl) as (Hr & Hfs & _).
  split; [exact Hr|exact Hfs].
Defined.
